(** * Lueur Quotidienne: the daily email script, [email_automation.py]

    A shallow embedding of the script and the properties its
    specification states about it.

    - Python [str] values are lists of Unicode code points ([list N]), so
      that [len], slicing and [str.replace] count what Python counts.
    - Dictionaries decoded from JSON are finite maps from keys to string
      values, following the source's annotations ([Dict[str, str]]).
    - The file system, the provider's HTTP API, the clocks and the random
      generator are the environment: files are a finite map from resolved
      paths to their text, the rest are oracles of a record [env].
    - A Python exception ends the run but keeps every effect performed
      before it; the monad [M] threads the world and returns either a
      value or the exception raised.
    - [json.load] is an oracle, typed as the source annotates what it
      decodes ([Dict[str, str]], [Optional[str]] for [newsletter_id]): it
      gives a value for a text that is a JSON object, or an array of
      objects, whose values are all strings, and nothing for a text that
      is not JSON.  The one [null] allowed is that of [newsletter_id],
      which [data.get] reads as it reads an absent key.  A deployment
      whose JSON holds values of other types (a [null], a number or a list
      where a string is annotated) is described by no environment: the
      script goes on with such a value, and the properties below say
      nothing about that run.  The provider's analytics answer is a JSON
      object, its values being whatever JSON allows.
    - The library is CPython 3.11 on Linux: [int], [str.strip],
      [datetime.replace], [strftime] and [csv.writer] are modelled as that
      version behaves.  What the script prints is left out. *)

From Stdlib Require Import ZArith List Bool Lia String Ascii.
From stdpp Require Import base option list gmap.

Open Scope Z_scope.
Open Scope list_scope.

(** ** Python strings *)

Abbreviation pystr := (list N).

(** An ASCII literal of the source, as code points. *)
Definition lit (s : string) : pystr :=
  List.map N_of_ascii (list_ascii_of_string s).

Fixpoint pystr_eqb (a b : pystr) : bool :=
  match a, b with
  | [], [] => true
  | x :: a', y :: b' => N.eqb x y && pystr_eqb a' b'
  | _, _ => false
  end.

(** [s.startswith(p)] *)
Fixpoint startswith (p s : pystr) : bool :=
  match p, s with
  | [], _ => true
  | x :: p', y :: s' => N.eqb x y && startswith p' s'
  | _ :: _, [] => false
  end.

(** [c in s] for a single character [c] *)
Definition contains_char (c : N) (s : pystr) : bool :=
  existsb (N.eqb c) s.

(** [s.replace(old, new)]: every occurrence of [old], found left to right
    without overlap, becomes [new].  [skip] counts the characters of the
    occurrence just matched that are still to be passed over. *)
Fixpoint replace_from (old new : pystr) (skip : nat) (s : pystr) : pystr :=
  match s with
  | [] => []
  | c :: s' =>
      match skip with
      | S k => replace_from old new k s'
      | O =>
          if startswith old s
          then new ++ replace_from old new (length old - 1) s'
          else c :: replace_from old new 0 s'
      end
  end.

Definition replace (s old new : pystr) : pystr :=
  match old with
  | [] => new ++ flat_map (fun c => c :: new) s
  | _ :: _ => replace_from old new 0 s
  end.

(** [s.lstrip(chars)] for a one-character [chars] *)
Fixpoint lstrip_char (c : N) (s : pystr) : pystr :=
  match s with
  | x :: s' => if N.eqb x c then lstrip_char c s' else s
  | [] => []
  end.

(** [str.isspace] on one character: the code points Python treats as
    whitespace. *)
Definition is_space (c : N) : bool :=
  ((9 <=? c) && (c <=? 13) || (28 <=? c) && (c <=? 32)
   || (c =? 133) || (c =? 160) || (c =? 5760)
   || (8192 <=? c) && (c <=? 8202)
   || (c =? 8232) || (c =? 8233) || (c =? 8239) || (c =? 8287)
   || (c =? 12288))%N.

Fixpoint lstrip (s : pystr) : pystr :=
  match s with
  | x :: s' => if is_space x then lstrip s' else s
  | [] => []
  end.

Definition rstrip (s : pystr) : pystr := rev (lstrip (rev s)).

(** [s.strip()] *)
Definition strip (s : pystr) : pystr := rstrip (lstrip s).

(** [s.split(sep)] for a one-character [sep]: [acc] holds the current
    piece, reversed. *)
Fixpoint split_from (sep : N) (acc s : pystr) : list pystr :=
  match s with
  | [] => [rev acc]
  | x :: s' =>
      if N.eqb x sep then rev acc :: split_from sep [] s'
      else split_from sep (x :: acc) s'
  end.

Definition split (sep : N) (s : pystr) : list pystr := split_from sep [] s.

(** [re.match(r"^https?://", s)] *)
Definition is_http_url (s : pystr) : bool :=
  startswith (lit "http://") s || startswith (lit "https://") s.

(** Decimal digits of a natural number, most significant first.  [fuel]
    bounds the number of digits. *)
Fixpoint digits_from (fuel : nat) (n : N) (acc : pystr) : pystr :=
  match fuel with
  | O => acc
  | S f =>
      let acc' := (48 + n mod 10)%N :: acc in
      if (n <? 10)%N then acc' else digits_from f (n / 10)%N acc'
  end.

Definition str_of_N (n : N) : pystr := digits_from (S (N.to_nat (N.log2 n))) n [].

(** [str(z)] for an integer *)
Definition str_of_Z (z : Z) : pystr :=
  if z <? 0 then 45%N :: str_of_N (Z.to_N (- z)) else str_of_N (Z.to_N z).

(** Zero padding on the left up to [w] characters, as [%02d], [%04d]. *)
Definition zfill (w : nat) (s : pystr) : pystr :=
  repeat 48%N (w - length s) ++ s.

(** ** Configuration *)

Record Config := {
  buttondown_api_key : pystr;
  newsletter_id : option pystr;
  send_time : pystr;
  timezone : pystr;
  utm_source : pystr;
  utm_medium : pystr;
  utm_campaign : pystr;
  tip_link : pystr;
  reports_csv : pystr;
  site_url : pystr
}.

(** [data.get(key, default)] on a decoded JSON object with string values *)
Definition dict_get (d : gmap pystr pystr) (key : string) (default : pystr) : pystr :=
  match d !! lit key with
  | Some v => v
  | None => default
  end.

(** ** Link instrumentor *)

Definition append_utm (url : pystr) (config : Config) : pystr :=
  let delimiter := if contains_char 63%N url then lit "&" else lit "?" in
  let utm_params :=
    lit "utm_source=" ++ utm_source config
    ++ lit "&utm_medium=" ++ utm_medium config
    ++ lit "&utm_campaign=" ++ utm_campaign config in
  url ++ delimiter ++ utm_params.

(** ** Template renderer *)

(** Lines 151-155 of [generate_email_html]: the absolute image URL. *)
Definition image_url_of (config : Config) (product : gmap pystr pystr) : pystr :=
  let image_path := dict_get product "image" [] in
  if negb (pystr_eqb image_path []) && negb (is_http_url image_path)
  then site_url config ++ lit "/" ++ lstrip_char 47%N image_path
  else image_path.

(** Line 166: the value put in place of the tip link. *)
Definition tip_value (config : Config) : pystr :=
  match tip_link config with
  | [] => lit "#"
  | _ :: _ => append_utm (tip_link config) config
  end.

(** Lines 157-169: the eight replacements, in the source's order. *)
Definition render (template recipient_name quote_text product_title product_desc
                   image_url product_link tip date_text : pystr) : pystr :=
  let html := template in
  let html := replace html (lit "{{NAME}}") recipient_name in
  let html := replace html (lit "{{QUOTE}}") quote_text in
  let html := replace html (lit "{{PRODUCT_TITLE}}") product_title in
  let html := replace html (lit "{{PRODUCT_DESC}}") product_desc in
  let html := replace html (lit "{{PRODUCT_IMG}}") image_url in
  let html := replace html (lit "{{PRODUCT_LINK}}") product_link in
  let html := replace html (lit "{{TIP_LINK}}") tip in
  let html := replace html (lit "{{DATE}}") date_text in
  html.

(** ** Subject line (line 291 of [main]) *)

Definition sparkle : N := 10024%N.   (* U+2728 *)
Definition ellipsis : N := 8230%N.   (* U+2026 *)

Definition subject_of (quote_text : pystr) : pystr :=
  if (40 <? length quote_text)%nat
  then [sparkle; 32%N] ++ firstn 40 quote_text ++ [ellipsis]
  else [sparkle; 32%N] ++ quote_text.

(** ** Dates and times *)

Record datetime := {
  year : Z; month : Z; day : Z;
  hour : Z; minute : Z; second : Z; microsecond : Z
}.

Definition is_leap (y : Z) : bool :=
  (y mod 4 =? 0) && (negb (y mod 100 =? 0) || (y mod 400 =? 0)).

Definition days_in_month (y m : Z) : Z :=
  if m =? 2 then (if is_leap y then 29 else 28)
  else if (m =? 4) || (m =? 6) || (m =? 9) || (m =? 11) then 30
  else 31.

Definition days_before_year (y : Z) : Z :=
  let y' := y - 1 in y' * 365 + y' / 4 - y' / 100 + y' / 400.

Definition days_before_month (y m : Z) : Z :=
  nth (Z.to_nat m) [0; 0; 31; 59; 90; 120; 151; 181; 212; 243; 273; 304; 334] 0
  + (if (2 <? m) && is_leap y then 1 else 0).

(** [date.toordinal()]: 1 is 0001-01-01. *)
Definition toordinal (d : datetime) : Z :=
  days_before_year (year d) + days_before_month (year d) (month d) + day d.

Definition valid_date (d : datetime) : bool :=
  (1 <=? year d) && (year d <=? 9999) && (1 <=? month d) && (month d <=? 12)
  && (1 <=? day d) && (day d <=? days_in_month (year d) (month d)).

Definition with_date (d : datetime) (y m dd : Z) : datetime :=
  {| year := y; month := m; day := dd; hour := hour d; minute := minute d;
     second := second d; microsecond := microsecond d |}.

(** [d + timedelta(days=1)], [None] for the [OverflowError] past year
    9999.  One day past the end of a month moves to the first of the next
    month. *)
Definition add_one_day (d : datetime) : option datetime :=
  let d1 := day d + 1 in
  let '(y, m, dd) :=
    if d1 <=? days_in_month (year d) (month d) then (year d, month d, d1)
    else if month d + 1 <=? 12 then (year d, month d + 1, 1)
    else (year d + 1, 1, 1) in
  if y <=? 9999 then Some (with_date d y m dd) else None.

(** [d - timedelta(days=1)], [None] for the [OverflowError] before year 1. *)
Definition sub_one_day (d : datetime) : option datetime :=
  let '(y, m, dd) :=
    if 1 <=? day d - 1 then (year d, month d, day d - 1)
    else if 1 <=? month d - 1
         then (year d, month d - 1, days_in_month (year d) (month d - 1))
    else (year d - 1, 12, 31) in
  if 1 <=? y then Some (with_date d y m dd) else None.

(** Microseconds from 0001-01-01T00:00:00 of the wall time [d] read in a
    zone that is [offset] seconds east of UTC. *)
Definition utc_micros (offset : Z) (d : datetime) : Z :=
  ((((toordinal d - 1) * 24 + hour d) * 60 + minute d) * 60 + second d - offset)
  * 1000000 + microsecond d.

(** The instants a [datetime] can hold: years 1 to 9999. *)
Definition max_micros : Z := 3652059 * 86400 * 1000000.

(** [d.astimezone(UTC)] as the instant it denotes; [utcoffset] is the
    zone of [d]. *)
Definition astimezone_utc (utcoffset : datetime -> Z) (d : datetime) : option Z :=
  let t := utc_micros (utcoffset d) d in
  if (0 <=? t) && (t <? max_micros) then Some t else None.

(** [d.strftime("%d/%m/%Y")] and [d.strftime("%Y-%m-%d")].  Day and month
    are padded to two digits; the year is not padded (the C library of
    Linux writes the year 999 as [999]). *)
Definition strftime_dmy (d : datetime) : pystr :=
  zfill 2 (str_of_Z (day d)) ++ lit "/" ++ zfill 2 (str_of_Z (month d))
  ++ lit "/" ++ str_of_Z (year d).

Definition strftime_ymd (d : datetime) : pystr :=
  str_of_Z (year d) ++ lit "-" ++ zfill 2 (str_of_Z (month d))
  ++ lit "-" ++ zfill 2 (str_of_Z (day d)).

(** [int(s)] for a [str], base ten.  CPython first turns every decimal
    digit of Unicode into its ASCII digit and every whitespace character
    beyond ASCII into a space, then reads: whitespace, an optional sign,
    digits with single underscores between them, whitespace.  More than
    4300 digits are refused. *)

(** The whitespace [int] passes over: below U+007F the whitespace of C
    (tab to carriage return, and space), which leaves out the separators
    U+001C to U+001F that [str.strip] removes; from U+007F on, the
    whitespace of Unicode. *)
Definition int_space (c : N) : bool :=
  ((9 <=? c) && (c <=? 13) || (c =? 32) || (127 <=? c) && is_space c)%N.

Fixpoint int_lstrip (s : pystr) : pystr :=
  match s with
  | x :: s' => if int_space x then int_lstrip s' else s
  | [] => []
  end.

Definition int_strip (s : pystr) : pystr := rev (int_lstrip (rev (int_lstrip s))).

(** The digit zero of each run of decimal digits (Unicode 14.0, category
    Nd); a run holds the digits zero to nine in order. *)
Definition decimal_zeros : list N :=
  List.map Z.to_N
    [48; 1632; 1776; 1984; 2406; 2534; 2662; 2790; 2918; 3046; 3174; 3302;
     3430; 3558; 3664; 3792; 3872; 4160; 4240; 6112; 6160; 6470; 6608; 6784;
     6800; 6992; 7088; 7232; 7248; 42528; 43216; 43264; 43472; 43504; 43600;
     44016; 65296; 66720; 68912; 69734; 69872; 69942; 70096; 70384; 70736;
     70864; 71248; 71360; 71472; 71904; 72016; 72784; 73040; 73120; 92768;
     92864; 93008; 120782; 120792; 120802; 120812; 120822; 123200; 123632;
     125264; 130032].

(** The value of a decimal digit, [None] for any other character. *)
Definition decimal_value (c : N) : option Z :=
  match List.find (fun z => (z <=? c) && (c <? z + 10))%N decimal_zeros with
  | Some z => Some (Z.of_N (c - z))
  | None => None
  end.

Definition int_max_str_digits : nat := 4300.

(** The digits after the sign: [count] digits read so far, [after_digit]
    when the last character was a digit. *)
Fixpoint int_digits (acc : Z) (count : nat) (after_digit : bool) (s : pystr) : option Z :=
  match s with
  | [] => if after_digit && (count <=? int_max_str_digits)%nat then Some acc else None
  | c :: s' =>
      match decimal_value c with
      | Some d => int_digits (10 * acc + d) (S count) true s'
      | None =>
          if (c =? 95)%N && after_digit then int_digits acc count false s'
          else None
      end
  end.

Definition py_int (s : pystr) : option Z :=
  match int_strip s with
  | 43%N :: r => int_digits 0 0 false r
  | 45%N :: r => Z.opp <$> int_digits 0 0 false r
  | r => int_digits 0 0 false r
  end.

(** Line 265: [send_hour, send_minute = map(int, send_time.split(":"))]. *)
Definition parse_send_time (s : pystr) : option (Z * Z) :=
  match List.map py_int (split 58%N s) with
  | [Some h; Some m] => Some (h, m)
  | _ => None
  end.

(** ** The world of a run *)

(** The exceptions of a run.  [NameError] is what an unknown zone ends
    with: [zoneinfo] being there, [pytz] was not imported, and line 263
    names it.  [PermissionError] stands for any failure to open a file for
    writing. *)
Inductive exn :=
  | FileNotFoundError
  | PermissionError
  | JSONDecodeError
  | KeyError (key : pystr)
  | IndexError
  | ValueError
  | OverflowError
  | NameError
  | RequestError.

Inductive result (A : Type) :=
  | Ok (a : A)
  | Raise (e : exn).
Arguments Ok {A} a.
Arguments Raise {A} e.

(** An integer that fits the C [int] the [datetime] methods take. *)
Definition fits_c_int (z : Z) : bool :=
  (- 2147483648 <=? z) && (z <=? 2147483647).

(** [d.replace(hour=h, minute=m, second=0, microsecond=0)]: the arguments
    are converted to C [int]s first, an [OverflowError] when one does not
    fit; a field out of range is then a [ValueError]. *)
Definition replace_time (d : datetime) (h m : Z) : result datetime :=
  if negb (fits_c_int h && fits_c_int m) then Raise OverflowError
  else if (0 <=? h) && (h <=? 23) && (0 <=? m) && (m <=? 59)
  then Ok {| year := year d; month := month d; day := day d;
             hour := h; minute := m; second := 0; microsecond := 0 |}
  else Raise ValueError.

(** Lines 265-267 of [main]: tomorrow at the configured time, on the local
    clock. *)
Definition publish_local (now_local : datetime) (send_time : pystr) : result datetime :=
  match parse_send_time send_time with
  | Some (send_hour, send_minute) =>
      match add_one_day now_local with
      | Some d => replace_time d send_hour send_minute
      | None => Raise OverflowError
      end
  | None => Raise ValueError
  end.

(** The [id] of the provider's answer, [resp_json.get("id")]. *)
Inductive id_value :=
  | IdStr (s : pystr)
  | IdInt (z : Z)
  | IdNone.

(** [str(email_id)] *)
Definition py_str (i : id_value) : pystr :=
  match i with
  | IdStr s => s
  | IdInt z => str_of_Z z
  | IdNone => lit "None"
  end.

(** A value of the provider's analytics answer, as [csv.writer] writes
    it: [None] as the empty field, a string as it is, an integer as its
    digits, and any other value (a float, a boolean, a list, an object)
    as the text [str] gives for it. *)
Inductive cell :=
  | CNone
  | CInt (z : Z)
  | CStr (s : pystr)
  | COther (text : pystr).

Definition cell_text (c : cell) : pystr :=
  match c with
  | CNone => []
  | CInt z => str_of_Z z
  | CStr s => s
  | COther text => text
  end.

(** The JSON body and the header of the create-email request. *)
Record request := {
  req_token : pystr;
  req_subject : pystr;
  req_body : pystr;
  req_status : pystr;
  req_publish_date : Z;
  req_newsletter_id : option pystr
}.

Inductive call :=
  | CreateEmail (r : request)
  | GetAnalytics (email_id : pystr).

(** What a run can change: the files (resolved path to text), the requests
    sent to the provider so far, and how many random draws were made. *)
Record world := {
  fs : gmap pystr pystr;
  calls : list call;
  rng_pos : nat
}.

(** What a run is given. *)
Record env := {
  script_dir : pystr;                    (* os.path.dirname(__file__) *)
  resolve : pystr -> pystr;              (* the file a path names *)
  can_write : pystr -> bool;             (* open(path, "w" or "a") succeeds *)
  json_object : pystr -> option (gmap pystr pystr);        (* json.load, an object of strings *)
  json_array : pystr -> option (list (gmap pystr pystr));  (* json.load, a pool of such objects *)
  http_get : pystr -> option pystr;      (* requests.get and raise_for_status *)
  zoneinfo : pystr -> option (datetime -> Z);  (* ZoneInfo(name): its utcoffset, in seconds *)
  now_in : pystr -> datetime;            (* datetime.now(tz) *)
  now_naive : datetime;                  (* datetime.now() *)
  draw : nat -> nat;                     (* the random generator's draws *)
  create_email : request -> option id_value;       (* POST /v1/emails *)
  get_analytics : pystr -> pystr -> option (gmap pystr cell)  (* GET /v1/emails/<id>/analytics, an object *)
}.

Definition M (A : Type) : Type := world -> result A * world.

Definition ret {A} (a : A) : M A := fun w => (Ok a, w).
Definition raise {A} (e : exn) : M A := fun w => (Raise e, w).
Definition bind {A B} (m : M A) (k : A -> M B) : M B :=
  fun w =>
    match m w with
    | (Ok a, w') => k a w'
    | (Raise e, w') => (Raise e, w')
    end.

Notation "'let!' x ':=' m 'in' k" := (bind m (fun x => k))
  (at level 10, x name, m at level 100, k at level 200).
Notation "'let!' ' p ':=' m 'in' k" := (bind m (fun x => match x with p => k end))
  (at level 10, p pattern, m at level 100, k at level 200).

Definition lift {A} (r : result A) : M A := fun w => (r, w).

Definition or_raise {A} (e : exn) (o : option A) : M A :=
  match o with
  | Some a => ret a
  | None => raise e
  end.

(** [d[key]] *)
Definition dict_getitem (d : gmap pystr pystr) (key : string) : M pystr :=
  or_raise (KeyError (lit key)) (d !! lit key).

(** [os.path.join(a, b)] for POSIX paths *)
Definition path_join (a b : pystr) : pystr :=
  if startswith (lit "/") b then b
  else match a with
       | [] => b
       | _ :: _ => if N.eqb (List.last a 0%N) 47%N then a ++ b else a ++ lit "/" ++ b
       end.

(** Text files are read with universal newlines: [\r\n] and [\r] come
    back as [\n]. *)
Fixpoint universal_newlines (s : pystr) : pystr :=
  match s with
  | [] => []
  | c :: s' =>
      if (c =? 13)%N
      then 10%N :: match s' with
                   | d :: s'' =>
                       if (d =? 10)%N then universal_newlines s''
                       else universal_newlines s'
                   | [] => []
                   end
      else c :: universal_newlines s'
  end.

(** The texts of the two hardcoded quotes (lines 271-272). *)
Definition fallback_text_light : pystr :=
  lit "La lumi" ++ [232%N] ++ lit "re que tu cherches " ++ [224%N] ++ lit " l"
  ++ [8217%N] ++ lit "ext" ++ [233%N] ++ lit "rieur brille d" ++ [233%N]
  ++ lit "j" ++ [224%N] ++ lit " en toi.".

Definition fallback_text_chance : pystr :=
  lit "Chaque jour est une nouvelle chance de semer des graines de bonheur.".

Section Run.
Variable E : env.

Definition path_exists (path : pystr) (w : world) : bool :=
  bool_decide (is_Some (fs w !! resolve E path)).

(** [open(path, "r").read()] *)
Definition read_text (path : pystr) : M pystr :=
  fun w =>
    match fs w !! resolve E path with
    | Some text => (Ok (universal_newlines text), w)
    | None => (Raise FileNotFoundError, w)
    end.

(** [open(path, "w").write(text)] *)
Definition write_text (path text : pystr) : M unit :=
  fun w =>
    if can_write E (resolve E path)
    then (Ok tt, {| fs := <[resolve E path := text]> (fs w);
                    calls := calls w; rng_pos := rng_pos w |})
    else (Raise PermissionError, w).

(** [open(path, "a", newline="").write(text)] *)
Definition append_text (path text : pystr) : M unit :=
  fun w =>
    if can_write E (resolve E path)
    then (Ok tt, {| fs := <[resolve E path := default [] (fs w !! resolve E path) ++ text]> (fs w);
                    calls := calls w; rng_pos := rng_pos w |})
    else (Raise PermissionError, w).

Definition Config_load (path : pystr) : M Config :=
  let! text := read_text path in
  let! data := or_raise JSONDecodeError (json_object E text) in
  let! key := dict_getitem data "buttondown_api_key" in
  ret {| buttondown_api_key := key;
         newsletter_id := data !! lit "newsletter_id";
         send_time := dict_get data "send_time" (lit "08:00");
         timezone := dict_get data "timezone" (lit "Europe/Paris");
         utm_source := dict_get data "utm_source" (lit "lueurquotidienne");
         utm_medium := dict_get data "utm_medium" (lit "email");
         utm_campaign := dict_get data "utm_campaign" (lit "daily_quote");
         tip_link := dict_get data "tip_link" [];
         reports_csv := dict_get data "reports_csv" (lit "analytics_report.csv");
         site_url := dict_get data "site_url" (lit "https://lueur-quotidienne.netlify.app") |}.

Definition load_json_data (path_or_url : pystr) : M (list (gmap pystr pystr)) :=
  if is_http_url path_or_url then
    let! body := or_raise RequestError (http_get E path_or_url) in
    or_raise JSONDecodeError (json_array E body)
  else
    let! text := read_text path_or_url in
    or_raise JSONDecodeError (json_array E text).

(** [random.choice(items)] *)
Definition choose_random_item (items : list (gmap pystr pystr)) : M (gmap pystr pystr) :=
  fun w =>
    match items !! (draw E (rng_pos w) mod length items)%nat with
    | Some item => (Ok item, {| fs := fs w; calls := calls w; rng_pos := S (rng_pos w) |})
    | None => (Raise IndexError, w)
    end.

Definition generate_email_html (recipient_name : pystr)
    (quote product : gmap pystr pystr) (config : Config) (template_path : pystr)
  : M pystr :=
  let! template := read_text template_path in
  let! link := dict_getitem product "link" in
  let product_link := append_utm link config in
  let image_url := image_url_of config product in
  let! quote_text := dict_getitem quote "text" in
  let! title := dict_getitem product "title" in
  let! description := dict_getitem product "description" in
  ret (render template recipient_name quote_text title description image_url
         product_link (tip_value config) (strftime_dmy (now_naive E))).

Definition post_email (data : request) : M id_value :=
  fun w =>
    let w' := {| fs := fs w; calls := calls w ++ [CreateEmail data]; rng_pos := rng_pos w |} in
    match create_email E data with
    | Some email_id => (Ok email_id, w')
    | None => (Raise RequestError, w')
    end.

Definition schedule_email (subject body_html : pystr) (publish_datetime : datetime)
    (utcoffset : datetime -> Z) (config : Config) (previous_email_id_path : pystr)
  : M id_value :=
  let! publish_date := or_raise OverflowError (astimezone_utc utcoffset publish_datetime) in
  let data := {| req_token := buttondown_api_key config;
                 req_subject := subject;
                 req_body := body_html;
                 req_status := lit "scheduled";
                 req_publish_date := publish_date;
                 req_newsletter_id :=
                   match newsletter_id config with
                   | Some (c :: n) => Some (c :: n)
                   | _ => None
                   end |} in
  let! email_id := post_email data in
  let! _ := write_text previous_email_id_path (py_str email_id) in
  ret email_id.

Definition retrieve_analytics (email_id : pystr) (config : Config) : M (gmap pystr cell) :=
  fun w =>
    let w' := {| fs := fs w; calls := calls w ++ [GetAnalytics email_id]; rng_pos := rng_pos w |} in
    match get_analytics E email_id (buttondown_api_key config) with
    | Some data => (Ok data, w')
    | None => (Raise RequestError, w')
    end.

(** One record of [csv.writer] in its default dialect. *)
Definition csv_field (f : pystr) : pystr :=
  if existsb (fun c => (c =? 44) || (c =? 34) || (c =? 13) || (c =? 10))%N f
  then 34%N :: flat_map (fun c => if (c =? 34)%N then [34%N; 34%N] else [c]) f ++ [34%N]
  else f.

Fixpoint join_fields (fields : list pystr) : pystr :=
  match fields with
  | [] => []
  | [f] => f
  | f :: rest => f ++ 44%N :: join_fields rest
  end.

(** A record of one empty field is written as a pair of quotes, which
    tells it from the record of no field. *)
Definition csv_row (fields : list pystr) : pystr :=
  match fields with
  | [f] => match f with
           | [] => [34%N; 34%N]
           | _ :: _ => csv_field f
           end
  | _ => join_fields (List.map csv_field fields)
  end ++ [13%N; 10%N].

Definition report_headers : list pystr :=
  [lit "Date"; lit "Subject"; lit "Recipients"; lit "Deliveries"; lit "Opens";
   lit "Clicks"; lit "TemporaryFailures"; lit "PermanentFailures";
   lit "Unsubscriptions"; lit "Complaints"].

(** [data.get(key, 0)], as the writer puts it in the row. *)
Definition counter (data : gmap pystr cell) (key : string) : pystr :=
  cell_text (default (CInt 0) (data !! lit key)).

Definition report_row (data : gmap pystr cell) (subject date_str : pystr) : list pystr :=
  [date_str; subject;
   counter data "recipients"; counter data "deliveries"; counter data "opens";
   counter data "clicks"; counter data "temporary_failures";
   counter data "permanent_failures"; counter data "unsubscriptions";
   counter data "complaints"].

Definition append_report_row (data : gmap pystr cell) (config : Config)
    (subject date_str : pystr) : M unit :=
  fun w =>
    let report_exists := path_exists (reports_csv config) w in
    append_text (reports_csv config)
      ((if report_exists then [] else csv_row report_headers)
       ++ csv_row (report_row data subject date_str)) w.

(** The recipient name [main] passes: the provider's own placeholder. *)
Definition subscriber_name : pystr := lit "{{ subscriber.name }}".

Definition fallback_quotes : list (gmap pystr pystr) :=
  [ {[ lit "text" := fallback_text_light ]};
    {[ lit "text" := fallback_text_chance ]} ].

Definition data_path (name : string) : pystr :=
  path_join (path_join (path_join (script_dir E) (lit "assets")) (lit "data")) (lit name).

(** Lines 270-273 *)
Definition load_quotes : M (list (gmap pystr pystr)) :=
  fun w =>
    if path_exists (data_path "quotes.json") w
    then load_json_data (data_path "quotes.json") w
    else ret fallback_quotes w.

(** Line 274 *)
Definition load_products : M (list (gmap pystr pystr)) :=
  load_json_data (data_path "products.json").

(** What [main] holds once the email is scheduled (line 300). *)
Record scheduled := {
  sch_config : Config;
  sch_now_local : datetime;
  sch_subject : pystr;
  sch_email_id : id_value
}.

(** Lines 254-300 of [main] *)
Definition main_schedule : M scheduled :=
  let! config := Config_load (path_join (script_dir E) (lit "config.json")) in
  let! utcoffset := or_raise NameError (zoneinfo E (timezone config)) in
  let now_local := now_in E (timezone config) in
  let! publish_dt_local := lift (publish_local now_local (send_time config)) in
  let! quotes_data := load_quotes in
  let! products_data := load_products in
  let! quote := choose_random_item quotes_data in
  let! product := choose_random_item products_data in
  let template_path := path_join (script_dir E) (lit "email_template.html") in
  let! _ := (fun w => if path_exists template_path w then ret tt w
                      else raise FileNotFoundError w) in
  let! body_html := generate_email_html subscriber_name quote product config template_path in
  let! quote_text := dict_getitem quote "text" in
  let subject := subject_of quote_text in
  let! email_id := schedule_email subject body_html publish_dt_local utcoffset config
                     (lit ".last_email_id") in
  ret {| sch_config := config; sch_now_local := now_local;
         sch_subject := subject; sch_email_id := email_id |}.

Definition previous_email_id_path : pystr :=
  path_join (script_dir E) (lit ".last_email_id").

(** Lines 304-312 of [main] *)
Definition report_previous (s : scheduled) : M unit :=
  fun w =>
    if path_exists previous_email_id_path w then
      (let! text := read_text previous_email_id_path in
       let last_email_id := strip text in
       if negb (pystr_eqb last_email_id [])
          && negb (pystr_eqb last_email_id (py_str (sch_email_id s)))
       then
         let! analytics := retrieve_analytics last_email_id (sch_config s) in
         let! yesterday := or_raise OverflowError (sub_one_day (sch_now_local s)) in
         append_report_row analytics (sch_config s) (sch_subject s)
           (strftime_ymd yesterday)
       else ret tt) w
    else ret tt w.

(** Lines 302-316 of [main] *)
Definition main_report (s : scheduled) : M unit :=
  let! _ := report_previous s in
  write_text previous_email_id_path (py_str (sch_email_id s)).

Definition main : M unit :=
  let! s := main_schedule in
  main_report s.

End Run.

(** ** Templates as the specification describes them *)

(** The eight placeholders of the template, in the order [render]
    replaces them. *)
Inductive placeholder :=
  | NAME | QUOTE | PRODUCT_TITLE | PRODUCT_DESC
  | PRODUCT_IMG | PRODUCT_LINK | TIP_LINK | DATE.

Definition token (p : placeholder) : pystr :=
  match p with
  | NAME => lit "{{NAME}}"
  | QUOTE => lit "{{QUOTE}}"
  | PRODUCT_TITLE => lit "{{PRODUCT_TITLE}}"
  | PRODUCT_DESC => lit "{{PRODUCT_DESC}}"
  | PRODUCT_IMG => lit "{{PRODUCT_IMG}}"
  | PRODUCT_LINK => lit "{{PRODUCT_LINK}}"
  | TIP_LINK => lit "{{TIP_LINK}}"
  | DATE => lit "{{DATE}}"
  end.

Definition placeholders : list placeholder :=
  [NAME; QUOTE; PRODUCT_TITLE; PRODUCT_DESC; PRODUCT_IMG; PRODUCT_LINK; TIP_LINK; DATE].

Definition placeholder_eqb (p q : placeholder) : bool :=
  match p, q with
  | NAME, NAME | QUOTE, QUOTE | PRODUCT_TITLE, PRODUCT_TITLE
  | PRODUCT_DESC, PRODUCT_DESC | PRODUCT_IMG, PRODUCT_IMG
  | PRODUCT_LINK, PRODUCT_LINK | TIP_LINK, TIP_LINK | DATE, DATE => true
  | _, _ => false
  end.

(** A template read as literal text and placeholders. *)
Inductive seg :=
  | Text (t : pystr)
  | Hole (p : placeholder).

Definition flatten (segs : list seg) : pystr :=
  flat_map (fun s => match s with Text t => t | Hole p => token p end) segs.

(** The template with every placeholder replaced by its value, all at
    once: what the specification calls rendering. *)
Definition fill (value : placeholder -> pystr) (segs : list seg) : pystr :=
  flat_map (fun s => match s with Text t => t | Hole p => value p end) segs.

(** One replacement seen on the segments. *)
Definition subst (q : placeholder) (v : pystr) (segs : list seg) : list seg :=
  List.map (fun s => match s with
                     | Hole p => if placeholder_eqb p q then Text v else Hole p
                     | Text t => Text t
                     end) segs.

(** [t] and [u] differ at a position both have. *)
Fixpoint clash (t u : pystr) : bool :=
  match t, u with
  | x :: t', y :: u' => negb (N.eqb x y) || clash t' u'
  | _, _ => false
  end.

(** No occurrence of [tok] can begin inside [t], whatever follows [t]. *)
Fixpoint quiet (tok t : pystr) : bool :=
  match t with
  | [] => true
  | _ :: t' => clash tok t && quiet tok t'
  end.

(** No placeholder can begin inside [t], whatever follows [t]. *)
Definition inert (t : pystr) : bool :=
  forallb (fun p => quiet (token p) t) placeholders.

Definition literal_inert (s : seg) : bool :=
  match s with
  | Text t => inert t
  | Hole _ => true
  end.

(** The values [generate_email_html] puts in place of the placeholders. *)
Definition values (recipient_name quote_text product_title product_desc
                   image_url product_link tip date_text : pystr)
                  (p : placeholder) : pystr :=
  match p with
  | NAME => recipient_name
  | QUOTE => quote_text
  | PRODUCT_TITLE => product_title
  | PRODUCT_DESC => product_desc
  | PRODUCT_IMG => image_url
  | PRODUCT_LINK => product_link
  | TIP_LINK => tip
  | DATE => date_text
  end.

(** ** Notions the properties are stated with *)

(** [s] begins with [p]. *)
Definition has_prefix (p s : pystr) : Prop := exists r, s = p ++ r.

(** [s] contains [t] as a substring. *)
Definition occurs (t s : pystr) : Prop := exists a b, s = a ++ t ++ b.

(** An image path that is an absolute URL, in the specification's words:
    it starts with [http://] or [https://]. *)
Definition http_prefixed (path : pystr) : Prop :=
  has_prefix (lit "http://") path \/ has_prefix (lit "https://") path.

(** [url] is [base] and [rel] joined with exactly one slash: a single [/]
    stands between them, with no further slash on either side of it. *)
Definition joined_by_one_slash (base rel url : pystr) : Prop :=
  url = base ++ [47%N] ++ rel /\ last base <> Some 47%N /\ head rel <> Some 47%N.

(** A configuration with the documented defaults, for the examples. *)
Definition example_config (site : pystr) : Config :=
  {| buttondown_api_key := lit "key"; newsletter_id := None;
     send_time := lit "08:00"; timezone := lit "Europe/Paris";
     utm_source := lit "lueurquotidienne"; utm_medium := lit "email";
     utm_campaign := lit "daily_quote"; tip_link := [];
     reports_csv := lit "analytics_report.csv"; site_url := site |}.

Definition example_product (image : option pystr) : gmap pystr pystr :=
  let base : gmap pystr pystr :=
    {[ lit "title" := lit "Bougie"; lit "description" := lit "Une bougie.";
       lit "link" := lit "https://shop.example/item?ref=1" ]} in
  match image with
  | Some path => <[ lit "image" := path ]> base
  | None => base
  end.

(** A computation that leaves the world as it found it. *)
Definition reads {A} (m : M A) : Prop :=
  forall w r w', m w = (r, w') -> w' = w.

(** ** A deployment, for the examples

    The script lives in [/app]; relative paths are resolved against the
    working directory [cwd]; every file can be written.  The JSON decoder
    knows the two files of the example.  The quote pool file is absent. *)

Definition quoted (s : string) : pystr := [34%N] ++ lit s ++ [34%N].

Definition example_config_text : pystr :=
  lit "{" ++ quoted "buttondown_api_key" ++ lit ": " ++ quoted "key" ++ lit "}".

Definition example_products_text : pystr :=
  lit "[{" ++ quoted "title" ++ lit ": " ++ quoted "Bougie" ++ lit ", "
  ++ quoted "description" ++ lit ": " ++ quoted "Une bougie." ++ lit ", "
  ++ quoted "link" ++ lit ": " ++ quoted "https://shop.example/item?ref=1" ++ lit "}]".

Definition example_template : pystr :=
  lit "<p>{{NAME}}, {{QUOTE}}</p><img src='{{PRODUCT_IMG}}'>"
  ++ lit "<a href='{{PRODUCT_LINK}}'>{{PRODUCT_TITLE}}</a> {{PRODUCT_DESC}} "
  ++ lit "<a href='{{TIP_LINK}}'>tip</a> {{DATE}}".

Definition example_now : datetime :=
  {| year := 2024; month := 1; day := 10; hour := 23; minute := 0;
     second := 0; microsecond := 0 |}.

Definition example_env (cwd : pystr) (new_id : id_value)
    (analytics : option (gmap pystr cell)) : env :=
  {| script_dir := lit "/app";
     resolve := path_join cwd;
     can_write := fun _ => true;
     json_object := fun text =>
       if pystr_eqb text example_config_text
       then Some {[ lit "buttondown_api_key" := lit "key" ]} else None;
     json_array := fun text =>
       if pystr_eqb text example_products_text
       then Some [example_product None] else None;
     http_get := fun _ => None;
     zoneinfo := fun name =>
       if pystr_eqb name (lit "Europe/Paris") then Some (fun _ => 3600) else None;
     now_in := fun _ => example_now;
     now_naive := example_now;
     draw := fun _ => 0%nat;
     create_email := fun _ => Some new_id;
     get_analytics := fun _ _ => analytics |}.

Definition example_files (last_email_id : option pystr) : gmap pystr pystr :=
  let base : gmap pystr pystr :=
    {[ lit "/app/config.json" := example_config_text;
       lit "/app/assets/data/products.json" := example_products_text;
       lit "/app/email_template.html" := example_template ]} in
  match last_email_id with
  | Some i => <[ lit "/app/.last_email_id" := i ]> base
  | None => base
  end.

Definition example_world (last_email_id : option pystr) : world :=
  {| fs := example_files last_email_id; calls := []; rng_pos := 0 |}.

Definition example_analytics : gmap pystr cell :=
  {[ lit "recipients" := CInt 120; lit "opens" := CInt 45 ]}.

(** [example_template], read as literal text and placeholders. *)
Definition example_segs : list seg :=
  [Text (lit "<p>"); Hole NAME; Text (lit ", "); Hole QUOTE;
   Text (lit "</p><img src='"); Hole PRODUCT_IMG; Text (lit "'><a href='");
   Hole PRODUCT_LINK; Text (lit "'>"); Hole PRODUCT_TITLE; Text (lit "</a> ");
   Hole PRODUCT_DESC; Text (lit " <a href='"); Hole TIP_LINK;
   Text (lit "'>tip</a> "); Hole DATE].

Definition example_quote : gmap pystr pystr :=
  {[ lit "text" := lit "Carpe diem." ]}.

(** The example deployment with the product pool file removed. *)
Definition example_world_without_products : world :=
  {| fs := delete (lit "/app/assets/data/products.json") (example_files None);
     calls := []; rng_pos := 0 |}.

(** What [main] holds after scheduling in the example deployment, when the
    provider assigns [email_id]: the configuration with its defaults and
    the subject made from the first hardcoded quote. *)
Definition example_scheduled (email_id : id_value) : scheduled :=
  {| sch_config := example_config (lit "https://lueur-quotidienne.netlify.app");
     sch_now_local := example_now;
     sch_subject := subject_of fallback_text_light;
     sch_email_id := email_id |}.

(** The deployments of the examples: the script started from its own
    directory or from [/home], the provider assigning [42] or [ 42] (with
    a leading space), the analytics request answered or failing. *)
Definition env_app : env :=
  example_env (lit "/app") (IdStr (lit "42")) (Some example_analytics).
Definition env_home : env :=
  example_env (lit "/home") (IdStr (lit "42")) (Some example_analytics).
Definition env_home_failing : env :=
  example_env (lit "/home") (IdStr (lit "42")) None.
Definition env_app_padded : env :=
  example_env (lit "/app") (IdStr (lit " 42")) (Some example_analytics).
Definition env_app_padded_failing : env :=
  example_env (lit "/app") (IdStr (lit " 42")) None.

(** The files before a run, the previous run having persisted [41]. *)
Definition world_41 : world := example_world (Some (lit "41")).

(** The values [generate_email_html] computes for the placeholders. *)
Definition html_values (E : env) (recipient_name : pystr) (config : Config)
    (product : gmap pystr pystr) (text title desc link : pystr)
  : placeholder -> pystr :=
  values recipient_name text title desc (image_url_of config product)
    (append_utm link config) (tip_value config) (strftime_dmy (now_naive E)).

(** ** Further notions *)

(** A computation that changes neither the files nor the requests sent. *)
Definition undisturbed {A} (m : M A) : Prop :=
  forall w r w', m w = (r, w') -> fs w' = fs w /\ calls w' = calls w.

(** A computation that, when it raises, has changed no file and has sent
    at most the create-email request. *)
Definition fails_before_write {A} (m : M A) : Prop :=
  forall w e w', m w = (Raise e, w') ->
    fs w' = fs w /\ (calls w' = calls w \/ exists r, calls w' = calls w ++ [CreateEmail r]).

(** The parameters [append_utm] adds, without the delimiter. *)
Definition utm_params (config : Config) : pystr :=
  lit "utm_source=" ++ utm_source config
  ++ lit "&utm_medium=" ++ utm_medium config
  ++ lit "&utm_campaign=" ++ utm_campaign config.

(** An environment whose provider refuses every create-email request. *)
Definition provider_down (E : env) : env :=
  {| script_dir := script_dir E; resolve := resolve E; can_write := can_write E;
     json_object := json_object E; json_array := json_array E;
     http_get := http_get E; zoneinfo := zoneinfo E; now_in := now_in E;
     now_naive := now_naive E; draw := draw E;
     create_email := fun _ => None;
     get_analytics := get_analytics E |}.

Definition env_down : env := provider_down env_home.

(** The example deployment before its first run: no identifier file. *)
Definition world_first : world := example_world None.

(** The placeholders [render] replaces after [p]. *)
Definition replaced_after (p : placeholder) : list placeholder :=
  match p with
  | NAME => [QUOTE; PRODUCT_TITLE; PRODUCT_DESC; PRODUCT_IMG; PRODUCT_LINK; TIP_LINK; DATE]
  | QUOTE => [PRODUCT_TITLE; PRODUCT_DESC; PRODUCT_IMG; PRODUCT_LINK; TIP_LINK; DATE]
  | PRODUCT_TITLE => [PRODUCT_DESC; PRODUCT_IMG; PRODUCT_LINK; TIP_LINK; DATE]
  | PRODUCT_DESC => [PRODUCT_IMG; PRODUCT_LINK; TIP_LINK; DATE]
  | PRODUCT_IMG => [PRODUCT_LINK; TIP_LINK; DATE]
  | PRODUCT_LINK => [TIP_LINK; DATE]
  | TIP_LINK => [DATE]
  | DATE => []
  end.

(** None of the placeholders [ps] can begin inside [t]. *)
Definition quiet_for (ps : list placeholder) (t : pystr) : bool :=
  forallb (fun q => quiet (token q) t) ps.

Definition text_quiet_for (ps : list placeholder) (s : seg) : bool :=
  match s with
  | Text t => quiet_for ps t
  | Hole _ => true
  end.

(** A time of day written [HH:MM], two digits each. *)
Definition hhmm (h m : Z) : pystr :=
  zfill 2 (str_of_Z h) ++ [58%N] ++ zfill 2 (str_of_Z m).

(** A computation that sends at most one request, a create-email request
    whose publish date is [t]. *)
Definition sends_at {A} (t : Z) (m : M A) : Prop :=
  forall w r w', m w = (r, w') ->
    calls w' = calls w
    \/ exists q, calls w' = calls w ++ [CreateEmail q] /\ req_publish_date q = t.

(* ================================================================== *)
(** * Properties *)

(** ** The string and date primitives on small inputs *)

Example strip_ex : strip (lit "  a b ") = lit "a b" /\ strip (lit "   ") = [].
Proof. split; reflexivity. Qed.

Example universal_newlines_ex :
  universal_newlines [97%N; 13%N; 10%N; 98%N; 13%N; 99%N] = [97%N; 10%N; 98%N; 10%N; 99%N].
Proof. reflexivity. Qed.

Example path_join_ex :
  path_join (lit "/app") (lit ".last_email_id") = lit "/app/.last_email_id"
  /\ path_join [] (lit ".last_email_id") = lit ".last_email_id"
  /\ path_join (lit "/app/") (lit "/etc/x") = lit "/etc/x".
Proof. repeat split; reflexivity. Qed.

Example replace_all : replace (lit "a{{X}}b{{X}}") (lit "{{X}}") (lit "12") = lit "a12b12".
Proof. reflexivity. Qed.

Example replace_no_overlap : replace (lit "aaa") (lit "aa") (lit "b") = lit "ba".
Proof. reflexivity. Qed.

Example str_of_Z_ex : str_of_Z 2024 = lit "2024" /\ str_of_Z 0 = lit "0" /\ str_of_Z (-15) = lit "-15".
Proof. repeat split; reflexivity. Qed.

Example split_ex : split 58%N (lit "08:00") = [lit "08"; lit "00"].
Proof. reflexivity. Qed.

Example py_int_ex : py_int (lit " 08") = Some 8 /\ py_int (lit "-1_0") = Some (-10) /\ py_int (lit "1__0") = None /\ py_int (lit "") = None.
Proof. repeat split; reflexivity. Qed.

(** The separator U+001C is whitespace for [str.strip], not for [int];
    the no-break space U+00A0 is whitespace for both; Arabic-Indic digits
    are digits. *)
Example py_int_unicode :
  strip [28%N; 56%N] = [56%N] /\ py_int [28%N; 56%N] = None
  /\ py_int [160%N; 56%N; 32%N] = Some 8
  /\ py_int [1632%N; 1640%N] = Some 8
  /\ py_int (lit "+ 8") = None
  /\ py_int (repeat 56%N 4301) = None.
Proof. repeat split; vm_compute; reflexivity. Qed.

Example parse_ex : parse_send_time (lit "08:00") = Some (8, 0) /\ parse_send_time (lit "8") = None.
Proof. repeat split; reflexivity. Qed.

Example add_day_ex :
  add_one_day {| year := 2024; month := 2; day := 29; hour := 1; minute := 2; second := 3; microsecond := 4 |}
  = Some {| year := 2024; month := 3; day := 1; hour := 1; minute := 2; second := 3; microsecond := 4 |}.
Proof. reflexivity. Qed.

Example ordinal_ex : toordinal {| year := 2024; month := 1; day := 10; hour := 0; minute := 0; second := 0; microsecond := 0 |} = 738895.
Proof. reflexivity. Qed.

Example strftime_ex : strftime_dmy {| year := 2024; month := 1; day := 10; hour := 0; minute := 0; second := 0; microsecond := 0 |} = lit "10/01/2024".
Proof. reflexivity. Qed.

(** ** Strings *)

Lemma pystr_eqb_eq (a b : pystr) : pystr_eqb a b = true <-> a = b.
Proof.
  revert b; induction a as [|x a IH]; intros [|y b]; simpl; try (split; congruence).
  rewrite andb_true_iff, N.eqb_eq, IH. split; [intros [-> ->]; reflexivity | intros [= -> ->]; auto].
Qed.

Lemma pystr_eqb_refl (a : pystr) : pystr_eqb a a = true.
Proof. apply pystr_eqb_eq; reflexivity. Qed.

Lemma pystr_eqb_neq (a b : pystr) : pystr_eqb a b = false <-> a <> b.
Proof.
  rewrite <- pystr_eqb_eq. destruct (pystr_eqb a b); split; congruence.
Qed.

Lemma startswith_prefix (p s : pystr) : startswith p s = true <-> has_prefix p s.
Proof.
  unfold has_prefix. revert s; induction p as [|x p IH]; intros s; simpl.
  - split; eauto.
  - destruct s as [|y s]; [split; [discriminate | intros [r [=]]]|].
    rewrite andb_true_iff, N.eqb_eq, IH. split.
    + intros [-> [r ->]]. eauto.
    + intros [r [= -> ->]]. eauto.
Qed.

Lemma startswith_app (p r : pystr) : startswith p (p ++ r) = true.
Proof. apply startswith_prefix. exists r; reflexivity. Qed.

Lemma contains_char_In (c : N) (s : pystr) : contains_char c s = true <-> In c s.
Proof.
  unfold contains_char. rewrite existsb_exists. split.
  - intros [x [Hx Heq]]. apply N.eqb_eq in Heq. subst; assumption.
  - intros H. exists c. split; [assumption | apply N.eqb_refl].
Qed.

Lemma is_http_url_prefixed (s : pystr) : is_http_url s = true <-> http_prefixed s.
Proof.
  unfold is_http_url, http_prefixed.
  rewrite orb_true_iff, !startswith_prefix. reflexivity.
Qed.

Lemma lstrip_char_spec (c : N) (s : pystr) :
  exists n, s = repeat c n ++ lstrip_char c s /\ head (lstrip_char c s) <> Some c.
Proof.
  induction s as [|x s [n [Hs Hh]]]; simpl.
  - exists 0%nat. split; [reflexivity | discriminate].
  - destruct (N.eqb_spec x c) as [->|Hne].
    + exists (S n). simpl. split; [f_equal; exact Hs | exact Hh].
    + exists 0%nat. simpl. split; [reflexivity | congruence].
Qed.

(** ** Link instrumentor *)

(** C4. [append_utm] is a function of the URL and the configuration alone:
    it returns the URL, one delimiter character and the parameters
    [utm_source], [utm_medium], [utm_campaign] in that order; the
    delimiter is [?] exactly when the URL holds no [?], and [&] exactly
    when it holds one.  On [https://shop.example/item?ref=1] with source
    [abc], medium [email] and campaign [x] it gives the link of the
    specification's scenario. *)
Theorem append_utm_spec :
  (forall (url : pystr) (config : Config),
      exists d : N,
        append_utm url config
        = url ++ [d] ++ lit "utm_source=" ++ utm_source config
              ++ lit "&utm_medium=" ++ utm_medium config
              ++ lit "&utm_campaign=" ++ utm_campaign config
        /\ (d = 63%N <-> ~ In 63%N url)
        /\ (d = 38%N <-> In 63%N url))
  /\ (forall key nid st tz tip rep site,
        append_utm (lit "https://shop.example/item?ref=1")
          {| buttondown_api_key := key; newsletter_id := nid; send_time := st;
             timezone := tz; utm_source := lit "abc"; utm_medium := lit "email";
             utm_campaign := lit "x"; tip_link := tip; reports_csv := rep;
             site_url := site |}
        = lit "https://shop.example/item?ref=1&utm_source=abc&utm_medium=email&utm_campaign=x").
Proof.
  split.
  - intros url config. unfold append_utm.
    destruct (contains_char 63%N url) eqn:Hc.
    + apply contains_char_In in Hc. exists 38%N.
      split; [reflexivity|]. split; split; intros; try discriminate; tauto.
    + assert (~ In 63%N url) as Hn.
      { intros Hin. apply contains_char_In in Hin. congruence. }
      exists 63%N. split; [reflexivity|]. split; split; intros; try discriminate; tauto.
  - intros. reflexivity.
Qed.

(** ** Subject line *)



(** ** Image URL *)

(** C6, as the specification states it: every relative image path is
    joined to the site URL with exactly one slash.  A site URL that itself
    ends in a slash is used as it is, and the join then shows two. *)
Lemma image_url_double_slash :
  example_product (Some (lit "images/cat.png")) !! lit "image" = Some (lit "images/cat.png")
  /\ ~ http_prefixed (lit "images/cat.png")
  /\ image_url_of (example_config (lit "https://lueur.example/"))
       (example_product (Some (lit "images/cat.png")))
     = lit "https://lueur.example//images/cat.png"
  /\ ~ (exists (n : nat) (rel : pystr),
          lit "images/cat.png" = repeat 47%N n ++ rel
          /\ joined_by_one_slash (site_url (example_config (lit "https://lueur.example/")))
               rel
               (image_url_of (example_config (lit "https://lueur.example/"))
                  (example_product (Some (lit "images/cat.png"))))).
Proof.
  split; [reflexivity|]. split.
  - intros H. apply is_http_url_prefixed in H. vm_compute in H. discriminate.
  - split; [reflexivity|].
    intros (n & rel & _ & _ & Hlast & _). apply Hlast. reflexivity.
Qed.

(** C6. For a product whose image path is not empty: when the path does
    not start with [http://] or [https://], the image URL is the site URL,
    one [/], and the path without its leading slashes; the two are joined
    by exactly one slash provided the site URL does not itself end in a
    slash.  When the path does start with [http://] or [https://], the
    image URL is the path itself. *)
Theorem image_url_spec (config : Config) (product : gmap pystr pystr) (path : pystr) :
  product !! lit "image" = Some path ->
  path <> [] ->
  (~ http_prefixed path ->
     exists (n : nat) (rel : pystr),
       path = repeat 47%N n ++ rel
       /\ image_url_of config product = site_url config ++ [47%N] ++ rel
       /\ head rel <> Some 47%N
       /\ (last (site_url config) <> Some 47%N ->
           joined_by_one_slash (site_url config) rel (image_url_of config product)))
  /\ (http_prefixed path -> image_url_of config product = path).
Proof.
  intros Himg Hne. unfold image_url_of, dict_get. rewrite Himg.
  apply pystr_eqb_neq in Hne. rewrite Hne. simpl negb. split.
  - intros Hrel.
    destruct (is_http_url path) eqn:Hu; [apply is_http_url_prefixed in Hu; tauto|].
    destruct (lstrip_char_spec 47%N path) as [n [Hp Hh]].
    exists n, (lstrip_char 47%N path). unfold joined_by_one_slash. simpl.
    repeat split; auto.
  - intros Habs. apply is_http_url_prefixed in Habs. rewrite Habs. reflexivity.
Qed.

Lemma image_url_spec_witness :
  (exists (n : nat) (rel : pystr),
      lit "/images/cat.png" = repeat 47%N n ++ rel
      /\ image_url_of (example_config (lit "https://lueur.example"))
           (example_product (Some (lit "/images/cat.png")))
         = lit "https://lueur.example" ++ [47%N] ++ rel
      /\ head rel <> Some 47%N
      /\ (last (lit "https://lueur.example") <> Some 47%N ->
          joined_by_one_slash (lit "https://lueur.example") rel
            (image_url_of (example_config (lit "https://lueur.example"))
               (example_product (Some (lit "/images/cat.png"))))))
  /\ image_url_of (example_config (lit "https://lueur.example"))
       (example_product (Some (lit "https://cdn.example/cat.png")))
     = lit "https://cdn.example/cat.png".
Proof.
  split.
  - apply (image_url_spec (example_config (lit "https://lueur.example"))
             (example_product (Some (lit "/images/cat.png"))) (lit "/images/cat.png")).
    + reflexivity.
    + discriminate.
    + intros H. apply is_http_url_prefixed in H. vm_compute in H. discriminate.
  - apply (image_url_spec (example_config (lit "https://lueur.example"))
             (example_product (Some (lit "https://cdn.example/cat.png")))
             (lit "https://cdn.example/cat.png")).
    + reflexivity.
    + discriminate.
    + apply is_http_url_prefixed. reflexivity.
Defined.

Example image_url_relative :
  image_url_of (example_config (lit "https://lueur.example"))
    (example_product (Some (lit "images/cat.png")))
  = lit "https://lueur.example/images/cat.png".
Proof. reflexivity. Qed.

(** ** The renderer on templates made of literal text and placeholders *)

Lemma clash_startswith (t u r : pystr) :
  clash t u = true -> startswith t (u ++ r) = false.
Proof.
  revert u; induction t as [|x t IH]; intros [|y u]; simpl; try discriminate.
  intros H. destruct (N.eqb x y); simpl in *; auto.
Qed.

Lemma clash_app (t u r : pystr) : clash t u = true -> clash t (u ++ r) = true.
Proof.
  revert u; induction t as [|x t IH]; intros [|y u]; simpl; try discriminate.
  intros H. destruct (N.eqb x y); simpl in *; auto.
Qed.

Lemma quiet_app (tok a b : pystr) :
  quiet tok a = true -> quiet tok b = true -> quiet tok (a ++ b) = true.
Proof.
  intros Ha Hb. induction a as [|c a IH]; simpl in *; [assumption|].
  apply andb_true_iff in Ha as [Hc Ha].
  apply andb_true_iff. split; [|auto].
  change (c :: a ++ b) with ((c :: a) ++ b). apply clash_app, Hc.
Qed.

Lemma quiet_no_occurrence (tok s : pystr) :
  tok <> [] -> quiet tok s = true -> ~ occurs tok s.
Proof.
  intros Hne Hq (a & b & ->).
  induction a as [|c a IH]; simpl in Hq.
  - destruct tok as [|x tok]; [congruence|]. simpl app in Hq. cbn [quiet] in Hq.
    apply andb_true_iff in Hq as [Hc _].
    apply (clash_startswith _ _ []) in Hc. rewrite app_nil_r in Hc.
    change (x :: tok ++ b) with ((x :: tok) ++ b) in Hc.
    rewrite startswith_app in Hc. discriminate.
  - apply andb_true_iff in Hq as [_ Hq]. auto.
Qed.

Lemma replace_from_quiet (tok v t r : pystr) :
  quiet tok t = true ->
  replace_from tok v 0 (t ++ r) = t ++ replace_from tok v 0 r.
Proof.
  induction t as [|c t IH]; simpl; [reflexivity|].
  intros H. apply andb_true_iff in H as [Hc Hq].
  apply (clash_startswith _ _ r) in Hc. simpl in Hc.
  destruct tok as [|x tok]; [discriminate|].
  simpl in Hc. simpl. rewrite Hc. f_equal. auto.
Qed.

Lemma replace_from_skip (tok v a r : pystr) :
  replace_from tok v (length a) (a ++ r) = replace_from tok v 0 r.
Proof. induction a as [|c a IH]; simpl; auto. Qed.

Lemma replace_from_match (tok v r : pystr) :
  tok <> [] ->
  replace_from tok v 0 (tok ++ r) = v ++ replace_from tok v 0 r.
Proof.
  destruct tok as [|x tok]; [congruence|]. intros _.
  change ((x :: tok) ++ r) with (x :: (tok ++ r)).
  cbn [replace_from].
  change (x :: tok ++ r) with ((x :: tok) ++ r). rewrite startswith_app.
  f_equal.
  replace (length (x :: tok) - 1)%nat with (length tok) by (simpl; lia).
  apply replace_from_skip.
Qed.

Lemma token_nonempty (p : placeholder) : token p <> [].
Proof. destruct p; discriminate. Qed.

Lemma replace_token (s : pystr) (q : placeholder) (v : pystr) :
  replace s (token q) v = replace_from (token q) v 0 s.
Proof. destruct q; reflexivity. Qed.

Lemma placeholder_eqb_eq (p q : placeholder) : placeholder_eqb p q = true <-> p = q.
Proof. destruct p, q; simpl; split; congruence. Qed.

Lemma token_quiet (p q : placeholder) :
  placeholder_eqb p q = false -> quiet (token q) (token p) = true.
Proof. destruct p, q; simpl; intros H; try discriminate; vm_compute; reflexivity. Qed.

Lemma inert_quiet (t : pystr) (p : placeholder) :
  inert t = true -> quiet (token p) t = true.
Proof.
  unfold inert. rewrite forallb_forall. intros H. apply H.
  destruct p; simpl; tauto.
Qed.

Lemma inert_app (a b : pystr) :
  inert a = true -> inert b = true -> inert (a ++ b) = true.
Proof.
  unfold inert. rewrite !forallb_forall. intros Ha Hb p Hp.
  apply quiet_app; auto.
Qed.

Lemma inert_no_occurrence (t : pystr) (p : placeholder) :
  inert t = true -> ~ occurs (token p) t.
Proof.
  intros H. apply quiet_no_occurrence; [apply token_nonempty | apply inert_quiet, H].
Qed.

(** A string without an opening brace is inert. *)
Lemma no_brace_inert (t : pystr) :
  Forall (fun c => c <> 123%N) t -> inert t = true.
Proof.
  intros H. unfold inert. apply forallb_forall. intros p _.
  induction H as [|c t Hc Ht IH]; [reflexivity|].
  cbn [quiet]. rewrite IH, andb_true_r.
  assert (forall tok, clash (123%N :: tok) (c :: t) = true) as Hclash.
  { intros tok. cbn [clash]. destruct (N.eqb_spec 123%N c); [congruence | reflexivity]. }
  destruct p; apply Hclash.
Qed.

(** One replacement on a template of inert text and placeholders replaces
    exactly the placeholders of that name. *)
Lemma replace_flatten (q : placeholder) (v : pystr) (segs : list seg) :
  forallb literal_inert segs = true ->
  replace (flatten segs) (token q) v = flatten (subst q v segs).
Proof.
  rewrite replace_token. intros H.
  induction segs as [|s segs IH]; [reflexivity|].
  simpl in H. apply andb_true_iff in H as [Hs Hrest].
  specialize (IH Hrest). unfold flatten in *. simpl flat_map.
  destruct s as [t|p]; simpl in Hs.
  - rewrite replace_from_quiet by (apply inert_quiet, Hs). simpl. f_equal. exact IH.
  - simpl. destruct (placeholder_eqb p q) eqn:Hpq.
    + apply placeholder_eqb_eq in Hpq. subst p.
      rewrite replace_from_match by apply token_nonempty. f_equal. exact IH.
    + rewrite replace_from_quiet by (apply token_quiet, Hpq). f_equal. exact IH.
Qed.

Lemma subst_literal_inert (q : placeholder) (v : pystr) (segs : list seg) :
  inert v = true ->
  forallb literal_inert segs = true ->
  forallb literal_inert (subst q v segs) = true.
Proof.
  intros Hv H. induction segs as [|s segs IH]; [reflexivity|].
  simpl in *. apply andb_true_iff in H as [Hs Hrest].
  rewrite (IH Hrest), andb_true_r.
  destruct s as [t|p]; simpl; [assumption|].
  destruct (placeholder_eqb p q); simpl; auto.
Qed.

Lemma fill_inert (value : placeholder -> pystr) (segs : list seg) :
  (forall p, inert (value p) = true) ->
  forallb literal_inert segs = true ->
  inert (fill value segs) = true.
Proof.
  intros Hv H. induction segs as [|s segs IH]; [reflexivity|].
  simpl in H. apply andb_true_iff in H as [Hs Hrest].
  unfold fill in *. simpl flat_map.
  apply inert_app; [|auto]. destruct s; simpl in *; auto.
Qed.

Lemma subst_all_fill (value : placeholder -> pystr) (segs : list seg) :
  flatten (subst DATE (value DATE) (subst TIP_LINK (value TIP_LINK)
    (subst PRODUCT_LINK (value PRODUCT_LINK) (subst PRODUCT_IMG (value PRODUCT_IMG)
    (subst PRODUCT_DESC (value PRODUCT_DESC) (subst PRODUCT_TITLE (value PRODUCT_TITLE)
    (subst QUOTE (value QUOTE) (subst NAME (value NAME) segs))))))))
  = fill value segs.
Proof.
  induction segs as [|s segs IH]; [reflexivity|].
  unfold flatten, fill in *. simpl. rewrite IH. f_equal.
  destruct s as [t|p]; [reflexivity|]. destruct p; reflexivity.
Qed.

(** On a template of inert text and placeholders, with inert values, the
    eight replacements amount to filling every placeholder at once. *)
Lemma render_fill (segs : list seg) (rn text title desc img link tip date : pystr) :
  forallb literal_inert segs = true ->
  (forall p, inert (values rn text title desc img link tip date p) = true) ->
  render (flatten segs) rn text title desc img link tip date
  = fill (values rn text title desc img link tip date) segs.
Proof.
  intros Hsegs Hv. unfold render.
  rewrite <- (subst_all_fill (values rn text title desc img link tip date) segs).
  cbn [values].
  pose proof (Hv NAME) as H1. pose proof (Hv QUOTE) as H2.
  pose proof (Hv PRODUCT_TITLE) as H3. pose proof (Hv PRODUCT_DESC) as H4.
  pose proof (Hv PRODUCT_IMG) as H5. pose proof (Hv PRODUCT_LINK) as H6.
  pose proof (Hv TIP_LINK) as H7. cbn [values] in *.
  change (lit "{{NAME}}") with (token NAME).
  change (lit "{{QUOTE}}") with (token QUOTE).
  change (lit "{{PRODUCT_TITLE}}") with (token PRODUCT_TITLE).
  change (lit "{{PRODUCT_DESC}}") with (token PRODUCT_DESC).
  change (lit "{{PRODUCT_IMG}}") with (token PRODUCT_IMG).
  change (lit "{{PRODUCT_LINK}}") with (token PRODUCT_LINK).
  change (lit "{{TIP_LINK}}") with (token TIP_LINK).
  change (lit "{{DATE}}") with (token DATE).
  repeat (rewrite replace_flatten
            by (repeat (apply subst_literal_inert; [assumption|]); assumption)).
  reflexivity.
Qed.

(** ** The monad *)

Lemma bind_Ok_inv {A B} (m : M A) (k : A -> M B) (w w' : world) (b : B) :
  bind m k w = (Ok b, w') ->
  exists a w1, m w = (Ok a, w1) /\ k a w1 = (Ok b, w').
Proof.
  unfold bind. destruct (m w) as [[a|e] w1]; [eauto | discriminate].
Qed.

Lemma bind_Raise_inv {A B} (m : M A) (k : A -> M B) (w w' : world) (e : exn) :
  bind m k w = (Raise e, w') ->
  m w = (Raise e, w')
  \/ exists a w1, m w = (Ok a, w1) /\ k a w1 = (Raise e, w').
Proof.
  unfold bind. destruct (m w) as [[a|e1] w1]; [eauto | intros [= -> ->]; auto].
Qed.

Lemma bind_Ok {A B} (m : M A) (k : A -> M B) (w w1 : world) (a : A) :
  m w = (Ok a, w1) -> bind m k w = k a w1.
Proof. unfold bind. intros ->. reflexivity. Qed.

Lemma bind_Raise {A B} (m : M A) (k : A -> M B) (w w1 : world) (e : exn) :
  m w = (Raise e, w1) -> bind m k w = (Raise e, w1).
Proof. unfold bind. intros ->. reflexivity. Qed.

Lemma reads_ret {A} (a : A) : reads (ret a).
Proof. intros w r w' [= _ <-]. reflexivity. Qed.

Lemma reads_raise {A} (e : exn) : reads (@raise A e).
Proof. intros w r w' [= _ <-]. reflexivity. Qed.

Lemma reads_lift {A} (r : result A) : reads (lift r).
Proof. intros w r' w' [= _ <-]. reflexivity. Qed.

Lemma reads_or_raise {A} (e : exn) (o : option A) : reads (or_raise e o).
Proof. destruct o; [apply reads_ret | apply reads_raise]. Qed.

Lemma reads_bind {A B} (m : M A) (k : A -> M B) :
  reads m -> (forall a, reads (k a)) -> reads (bind m k).
Proof.
  intros Hm Hk w r w'. unfold bind.
  destruct (m w) as [[a|e] w1] eqn:Hmw; apply Hm in Hmw; subst w1.
  - apply Hk.
  - intros [= _ <-]. reflexivity.
Qed.

Lemma reads_read_text (E : env) (path : pystr) : reads (read_text E path).
Proof.
  intros w r w'. unfold read_text.
  destruct (fs w !! resolve E path); intros [= _ <-]; reflexivity.
Qed.

Lemma reads_dict_getitem (d : gmap pystr pystr) (key : string) : reads (dict_getitem d key).
Proof. apply reads_or_raise. Qed.

Lemma reads_Config_load (E : env) (path : pystr) : reads (Config_load E path).
Proof.
  unfold Config_load.
  repeat (apply reads_bind; [|intros ?]);
    auto using reads_read_text, reads_or_raise, reads_dict_getitem, reads_ret.
Qed.

Lemma reads_load_json_data (E : env) (path : pystr) : reads (load_json_data E path).
Proof.
  unfold load_json_data. destruct (is_http_url path);
    repeat (apply reads_bind; [|intros ?]);
    auto using reads_read_text, reads_or_raise.
Qed.

Lemma reads_load_quotes (E : env) : reads (load_quotes E).
Proof.
  intros w r w'. unfold load_quotes.
  destruct (path_exists E (data_path E "quotes.json") w);
    [apply reads_load_json_data | apply reads_ret].
Qed.

Lemma reads_generate_email_html (E : env) rn quote product config template_path :
  reads (generate_email_html E rn quote product config template_path).
Proof.
  unfold generate_email_html.
  repeat (apply reads_bind; [|intros ?]);
    auto using reads_read_text, reads_dict_getitem, reads_ret.
Qed.

(** ** Rendering *)

Lemma digits_from_chars (P : N -> Prop) (fuel : nat) (n : N) (acc : pystr) :
  (forall k, (k < 10)%N -> P (48 + k)%N) ->
  Forall P acc -> Forall P (digits_from fuel n acc).
Proof.
  intros HP. revert n acc.
  induction fuel as [|f IH]; intros n acc Hacc; simpl; [assumption|].
  assert (Forall P ((48 + n mod 10)%N :: acc)) as Hacc'.
  { constructor; [|assumption]. apply HP. apply N.mod_lt. discriminate. }
  destruct (n <? 10)%N; auto.
Qed.

Lemma str_of_Z_no_brace (z : Z) : Forall (fun c => c <> 123%N) (str_of_Z z).
Proof.
  assert (forall n, Forall (fun c => c <> 123%N) (str_of_N n)) as Hn.
  { intros n. unfold str_of_N. apply digits_from_chars; [|constructor].
    intros k Hk. lia. }
  unfold str_of_Z. destruct (z <? 0); [constructor; [discriminate|]|]; apply Hn.
Qed.

Lemma zfill_no_brace (w : nat) (s : pystr) :
  Forall (fun c => c <> 123%N) s -> Forall (fun c => c <> 123%N) (zfill w s).
Proof.
  intros H. unfold zfill. apply Forall_app. split; [|assumption].
  induction (w - length s)%nat; simpl; constructor; [discriminate | assumption].
Qed.

Lemma strftime_dmy_inert (d : datetime) : inert (strftime_dmy d) = true.
Proof.
  apply no_brace_inert. unfold strftime_dmy.
  change (lit "/") with [47%N].
  repeat first [ apply zfill_no_brace, str_of_Z_no_brace
               | apply str_of_Z_no_brace
               | apply Forall_app; split
               | constructor; [discriminate | constructor] ].
Qed.

Lemma subscriber_name_inert : inert subscriber_name = true.
Proof. vm_compute. reflexivity. Qed.

Lemma generate_email_html_eval (E : env) (recipient_name : pystr)
    (quote product : gmap pystr pystr) (config : Config) (template_path : pystr)
    (w : world) (raw text title desc link : pystr) :
  fs w !! resolve E template_path = Some raw ->
  quote !! lit "text" = Some text ->
  product !! lit "title" = Some title ->
  product !! lit "description" = Some desc ->
  product !! lit "link" = Some link ->
  generate_email_html E recipient_name quote product config template_path w
  = (Ok (render (universal_newlines raw) recipient_name text title desc
           (image_url_of config product) (append_utm link config)
           (tip_value config) (strftime_dmy (now_naive E))), w).
Proof.
  intros Hraw Htext Htitle Hdesc Hlink.
  unfold generate_email_html, bind, read_text, dict_getitem, or_raise, ret.
  rewrite Hraw, Hlink, Htext, Htitle, Hdesc. reflexivity.
Qed.

(** C3, as the specification states it: whatever the template and the
    values, no placeholder is left and no value is read again as a
    placeholder.  With the quote [{{PRODUCT_TITLE}}] and the product title
    [{{NAME}}], the quote put in place of [{{QUOTE}}] is itself replaced by
    the later replacement of [{{PRODUCT_TITLE}}], and the page ends with
    the placeholder [{{NAME}}] in it. *)
Lemma render_reads_values_again :
  flatten [Text (lit "<p>"); Hole QUOTE; Text (lit "</p>")] = lit "<p>{{QUOTE}}</p>"
  /\ render (lit "<p>{{QUOTE}}</p>") subscriber_name (lit "{{PRODUCT_TITLE}}")
       (lit "{{NAME}}") (lit "Une bougie.") []
       (lit "https://shop.example/item?utm_source=abc") (lit "#") (lit "10/01/2024")
     = lit "<p>{{NAME}}</p>"
  /\ occurs (token NAME) (lit "<p>{{NAME}}</p>")
  /\ fill (values subscriber_name (lit "{{PRODUCT_TITLE}}") (lit "{{NAME}}")
             (lit "Une bougie.") [] (lit "https://shop.example/item?utm_source=abc")
             (lit "#") (lit "10/01/2024"))
       [Text (lit "<p>"); Hole QUOTE; Text (lit "</p>")]
     = lit "<p>{{PRODUCT_TITLE}}</p>".
Proof.
  split; [reflexivity|]. split; [reflexivity|]. split; [|reflexivity].
  exists (lit "<p>"), (lit "</p>"). reflexivity.
Qed.

(** C3. When the template is made of placeholders and of literal text in
    which no placeholder can begin, and no placeholder can begin in the
    substituted values either (as in any value without an opening brace,
    and in the provider's own recipient token), [generate_email_html]
    returns the template with every placeholder replaced by its value, no
    value being read again, and none of the eight placeholders occurs in
    the result. *)
Theorem render_resolves_placeholders (E : env) (recipient_name : pystr)
    (quote product : gmap pystr pystr) (config : Config) (template_path : pystr)
    (w : world) (raw text title desc link : pystr) (segs : list seg) :
  fs w !! resolve E template_path = Some raw ->
  universal_newlines raw = flatten segs ->
  forallb literal_inert segs = true ->
  quote !! lit "text" = Some text ->
  product !! lit "title" = Some title ->
  product !! lit "description" = Some desc ->
  product !! lit "link" = Some link ->
  inert recipient_name = true ->
  inert text = true ->
  inert title = true ->
  inert desc = true ->
  inert (image_url_of config product) = true ->
  inert (append_utm link config) = true ->
  inert (tip_value config) = true ->
  generate_email_html E recipient_name quote product config template_path w
  = (Ok (fill (html_values E recipient_name config product text title desc link) segs), w)
  /\ forall p,
       ~ occurs (token p)
           (fill (html_values E recipient_name config product text title desc link) segs).
Proof.
  intros Hraw Hsegs Hlit Htext Htitle Hdesc Hlink H1 H2 H3 H4 H5 H6 H7.
  assert (forall p, inert (html_values E recipient_name config product text title desc link p)
                    = true) as Hvalue.
  { intros p. destruct p; simpl; auto using strftime_dmy_inert. }
  split.
  - rewrite (generate_email_html_eval E _ _ _ _ _ _ raw text title desc link) by assumption.
    rewrite Hsegs. unfold html_values in *. rewrite render_fill by assumption. reflexivity.
  - intros p. apply inert_no_occurrence, fill_inert; assumption.
Qed.

Lemma render_resolves_placeholders_witness :
  generate_email_html env_app subscriber_name example_quote
    (example_product (Some (lit "images/bougie.png")))
    (example_config (lit "https://lueur.example")) (lit "email_template.html")
    (example_world None)
  = (Ok (fill (html_values env_app subscriber_name
                 (example_config (lit "https://lueur.example"))
                 (example_product (Some (lit "images/bougie.png")))
                 (lit "Carpe diem.") (lit "Bougie") (lit "Une bougie.")
                 (lit "https://shop.example/item?ref=1")) example_segs),
     example_world None)
  /\ forall p,
       ~ occurs (token p)
           (fill (html_values env_app subscriber_name
                    (example_config (lit "https://lueur.example"))
                    (example_product (Some (lit "images/bougie.png")))
                    (lit "Carpe diem.") (lit "Bougie") (lit "Une bougie.")
                    (lit "https://shop.example/item?ref=1")) example_segs).
Proof.
  apply (render_resolves_placeholders env_app subscriber_name
           example_quote (example_product (Some (lit "images/bougie.png")))
           (example_config (lit "https://lueur.example")) (lit "email_template.html")
           (example_world None) example_template (lit "Carpe diem.") (lit "Bougie")
           (lit "Une bougie.") (lit "https://shop.example/item?ref=1") example_segs);
    vm_compute; reflexivity.
Defined.

Example render_example :
  fill (values subscriber_name (lit "Carpe diem.") (lit "Bougie") (lit "Une bougie.")
          (lit "https://lueur.example/images/bougie.png")
          (lit "https://shop.example/item?ref=1&utm_source=abc") (lit "#")
          (lit "10/01/2024")) example_segs
  = lit "<p>{{ subscriber.name }}, Carpe diem.</p><img src='https://lueur.example/images/bougie.png'>"
    ++ lit "<a href='https://shop.example/item?ref=1&utm_source=abc'>Bougie</a> Une bougie. "
    ++ lit "<a href='#'>tip</a> 10/01/2024".
Proof. reflexivity. Qed.

Lemma replace_flatten_quiet (q : placeholder) (v : pystr) (segs : list seg) :
  forallb (text_quiet_for [q]) segs = true ->
  replace (flatten segs) (token q) v = flatten (subst q v segs).
Proof.
  rewrite replace_token. intros H.
  induction segs as [|s segs IH]; [reflexivity|].
  simpl in H. apply andb_true_iff in H as [Hs Hrest].
  specialize (IH Hrest). unfold flatten in *. simpl flat_map.
  destruct s as [t|p]; simpl in Hs.
  - rewrite andb_true_r in Hs.
    rewrite replace_from_quiet by exact Hs. simpl. f_equal. exact IH.
  - simpl. destruct (placeholder_eqb p q) eqn:Hpq.
    + apply placeholder_eqb_eq in Hpq. subst p.
      rewrite replace_from_match by apply token_nonempty. f_equal. exact IH.
    + rewrite replace_from_quiet by (apply token_quiet, Hpq). f_equal. exact IH.
Qed.

Lemma render_step (q : placeholder) (ps : list placeholder) (v : pystr) (segs : list seg) :
  forallb (text_quiet_for (q :: ps)) segs = true ->
  quiet_for ps v = true ->
  replace (flatten segs) (token q) v = flatten (subst q v segs)
  /\ forallb (text_quiet_for ps) (subst q v segs) = true.
Proof.
  intros Hsegs Hv. split.
  - apply replace_flatten_quiet.
    rewrite forallb_forall in *. intros s Hs. specialize (Hsegs s Hs).
    destruct s as [t|p]; [|reflexivity]. simpl in *.
    apply andb_true_iff in Hsegs as [Hq _]. rewrite Hq. reflexivity.
  - induction segs as [|s segs IH]; [reflexivity|].
    simpl in Hsegs. apply andb_true_iff in Hsegs as [Hs Hrest].
    simpl. rewrite (IH Hrest), andb_true_r.
    destruct s as [t|p]; simpl in *.
    + apply andb_true_iff in Hs as [_ Hs]. exact Hs.
    + destruct (placeholder_eqb p q); simpl; auto.
Qed.

(** The eight replacements fill the placeholders of a template when, in
    each value, none of the placeholders replaced later can begin. *)
Lemma render_forward (value : placeholder -> pystr) (segs : list seg) :
  forallb literal_inert segs = true ->
  (forall p, quiet_for (replaced_after p) (value p) = true) ->
  render (flatten segs) (value NAME) (value QUOTE) (value PRODUCT_TITLE)
    (value PRODUCT_DESC) (value PRODUCT_IMG) (value PRODUCT_LINK) (value TIP_LINK)
    (value DATE)
  = fill value segs.
Proof.
  intros Hsegs Hv. unfold render.
  rewrite <- (subst_all_fill value segs).
  change (lit "{{NAME}}") with (token NAME).
  change (lit "{{QUOTE}}") with (token QUOTE).
  change (lit "{{PRODUCT_TITLE}}") with (token PRODUCT_TITLE).
  change (lit "{{PRODUCT_DESC}}") with (token PRODUCT_DESC).
  change (lit "{{PRODUCT_IMG}}") with (token PRODUCT_IMG).
  change (lit "{{PRODUCT_LINK}}") with (token PRODUCT_LINK).
  change (lit "{{TIP_LINK}}") with (token TIP_LINK).
  change (lit "{{DATE}}") with (token DATE).
  assert (forallb (text_quiet_for placeholders) segs = true) as H0.
  { rewrite forallb_forall in *. intros s Hs. specialize (Hsegs s Hs).
    destruct s; [exact Hsegs | reflexivity]. }
  destruct (render_step NAME _ (value NAME) segs H0 (Hv NAME)) as [-> H1].
  destruct (render_step QUOTE _ (value QUOTE) _ H1 (Hv QUOTE)) as [-> H2].
  destruct (render_step PRODUCT_TITLE _ (value PRODUCT_TITLE) _ H2 (Hv PRODUCT_TITLE))
    as [-> H3].
  destruct (render_step PRODUCT_DESC _ (value PRODUCT_DESC) _ H3 (Hv PRODUCT_DESC))
    as [-> H4].
  destruct (render_step PRODUCT_IMG _ (value PRODUCT_IMG) _ H4 (Hv PRODUCT_IMG))
    as [-> H5].
  destruct (render_step PRODUCT_LINK _ (value PRODUCT_LINK) _ H5 (Hv PRODUCT_LINK))
    as [-> H6].
  destruct (render_step TIP_LINK _ (value TIP_LINK) _ H6 (Hv TIP_LINK)) as [-> H7].
  destruct (render_step DATE _ (value DATE) _ H7 (Hv DATE)) as [-> _].
  reflexivity.
Qed.

(** C9. When the product has no image field, or an empty one, the image
    URL is the empty string: it is not resolved against the site URL, so
    it is never the site URL followed by a bare slash.  The page
    [generate_email_html] returns is then the template with the empty
    string in place of every [{{PRODUCT_IMG}}] (and the other
    placeholders filled with their values): the text before such a
    placeholder is followed at once by the text after it.  The page is
    stated for a template made of placeholders and of literal text in
    which no placeholder can begin, and for values in which no
    placeholder replaced later can begin. *)
Theorem empty_image_renders_empty (E : env) (recipient_name : pystr)
    (quote product : gmap pystr pystr) (config : Config) (template_path : pystr)
    (w : world) (raw text title desc link : pystr) (segs : list seg) :
  product !! lit "image" = None \/ product !! lit "image" = Some [] ->
  fs w !! resolve E template_path = Some raw ->
  universal_newlines raw = flatten segs ->
  forallb literal_inert segs = true ->
  quote !! lit "text" = Some text ->
  product !! lit "title" = Some title ->
  product !! lit "description" = Some desc ->
  product !! lit "link" = Some link ->
  (forall p, quiet_for (replaced_after p)
               (values recipient_name text title desc [] (append_utm link config)
                  (tip_value config) (strftime_dmy (now_naive E)) p) = true) ->
  image_url_of config product = []
  /\ image_url_of config product <> site_url config ++ lit "/"
  /\ generate_email_html E recipient_name quote product config template_path w
     = (Ok (fill (values recipient_name text title desc [] (append_utm link config)
                    (tip_value config) (strftime_dmy (now_naive E))) segs), w)
  /\ forall before after,
       fill (values recipient_name text title desc [] (append_utm link config)
               (tip_value config) (strftime_dmy (now_naive E)))
         (Text before :: Hole PRODUCT_IMG :: Text after :: [])
       = before ++ after.
Proof.
  intros Himg Hraw Hsegs Hlit Htext Htitle Hdesc Hlink Hvalues.
  assert (image_url_of config product = []) as Hurl.
  { unfold image_url_of, dict_get. destruct Himg as [-> | ->]; reflexivity. }
  split; [exact Hurl|]. split; [|split].
  - rewrite Hurl. intros H. symmetry in H. apply app_eq_nil in H as [_ H]. discriminate.
  - rewrite (generate_email_html_eval E _ _ _ _ _ _ raw text title desc link) by assumption.
    rewrite Hurl, Hsegs.
    rewrite <- (render_forward _ segs Hlit Hvalues). reflexivity.
  - intros before after. unfold fill. simpl. rewrite app_nil_r. reflexivity.
Qed.

Lemma empty_image_renders_empty_witness :
  image_url_of (example_config (lit "https://lueur.example")) (example_product None) = []
  /\ image_url_of (example_config (lit "https://lueur.example")) (example_product None)
     <> site_url (example_config (lit "https://lueur.example")) ++ lit "/"
  /\ generate_email_html env_app subscriber_name example_quote (example_product None)
       (example_config (lit "https://lueur.example")) (lit "email_template.html")
       (example_world None)
     = (Ok (fill (values subscriber_name (lit "Carpe diem.") (lit "Bougie")
                    (lit "Une bougie.") []
                    (append_utm (lit "https://shop.example/item?ref=1")
                       (example_config (lit "https://lueur.example")))
                    (tip_value (example_config (lit "https://lueur.example")))
                    (strftime_dmy (now_naive env_app))) example_segs),
        example_world None)
  /\ forall before after,
       fill (values subscriber_name (lit "Carpe diem.") (lit "Bougie")
               (lit "Une bougie.") []
               (append_utm (lit "https://shop.example/item?ref=1")
                  (example_config (lit "https://lueur.example")))
               (tip_value (example_config (lit "https://lueur.example")))
               (strftime_dmy (now_naive env_app)))
         (Text before :: Hole PRODUCT_IMG :: Text after :: [])
       = before ++ after.
Proof.
  apply (empty_image_renders_empty env_app subscriber_name
           example_quote (example_product None)
           (example_config (lit "https://lueur.example")) (lit "email_template.html")
           (example_world None) example_template (lit "Carpe diem.") (lit "Bougie")
           (lit "Une bougie.") (lit "https://shop.example/item?ref=1") example_segs);
    try (left; reflexivity); try reflexivity.
  intros p. destruct p; vm_compute; reflexivity.
Defined.

(** The page of the example deployment for a product without image: the
    [src] attribute of the image is empty. *)
Example empty_image_page :
  fst (generate_email_html env_app subscriber_name example_quote (example_product None)
         (example_config (lit "https://lueur.example")) (lit "email_template.html")
         (example_world None))
  = Ok (lit "<p>{{ subscriber.name }}, Carpe diem.</p><img src=''>"
        ++ lit "<a href='https://shop.example/item?ref=1&utm_source=lueurquotidienne"
        ++ lit "&utm_medium=email&utm_campaign=daily_quote'>Bougie</a> Une bougie. "
        ++ lit "<a href='#'>tip</a> 10/01/2024").
Proof. vm_compute. reflexivity. Qed.

Example empty_image_example :
  render (lit "<img src='{{PRODUCT_IMG}}'>") subscriber_name (lit "Carpe diem.")
    (lit "Bougie") (lit "Une bougie.")
    (image_url_of (example_config (lit "https://lueur.example")) (example_product (Some [])))
    (lit "https://shop.example/") (lit "#") (lit "10/01/2024")
  = lit "<img src=''>".
Proof. reflexivity. Qed.

(** ** The publish instant *)

Lemma days_before_year_succ (y : Z) :
  days_before_year (y + 1) = days_before_year y + 365 + (if is_leap y then 1 else 0).
Proof.
  unfold days_before_year, is_leap. replace (y + 1 - 1) with y by lia.
  destruct (Z.eqb_spec (y mod 4) 0), (Z.eqb_spec (y mod 100) 0),
    (Z.eqb_spec (y mod 400) 0); simpl; Z.div_mod_to_equations; lia.
Qed.

Lemma days_before_year_bounds (y : Z) :
  1 <= y <= 9998 -> 0 <= days_before_year y <= 3651400.
Proof. intros H. unfold days_before_year. Z.div_mod_to_equations. lia. Qed.

Lemma month_cases (m : Z) :
  1 <= m <= 12 ->
  m = 1 \/ m = 2 \/ m = 3 \/ m = 4 \/ m = 5 \/ m = 6 \/ m = 7 \/ m = 8 \/ m = 9
  \/ m = 10 \/ m = 11 \/ m = 12.
Proof. lia. Qed.

Lemma days_in_month_bounds (y m : Z) : 28 <= days_in_month y m <= 31.
Proof.
  unfold days_in_month.
  destruct (m =? 2); [destruct (is_leap y); lia|].
  destruct ((m =? 4) || (m =? 6) || (m =? 9) || (m =? 11)); lia.
Qed.

Lemma days_before_month_succ (y m : Z) :
  1 <= m <= 11 ->
  days_before_month y (m + 1) = days_before_month y m + days_in_month y m.
Proof.
  intros H. assert (1 <= m <= 12) as Hm by lia.
  destruct (month_cases m Hm) as [-> | [-> | [-> | [-> | [-> | [-> | [-> | [-> |
    [-> | [-> | [-> | ->]]]]]]]]]]]; try lia;
    unfold days_before_month, days_in_month; simpl; destruct (is_leap y); reflexivity.
Qed.

Lemma days_before_month_bounds (y m : Z) :
  1 <= m <= 12 -> 0 <= days_before_month y m <= 335.
Proof.
  intros Hm.
  destruct (month_cases m Hm) as [-> | [-> | [-> | [-> | [-> | [-> | [-> | [-> |
    [-> | [-> | [-> | ->]]]]]]]]]]];
    unfold days_before_month; simpl; destruct (is_leap y); lia.
Qed.

Lemma valid_date_inv (d : datetime) :
  valid_date d = true ->
  1 <= year d <= 9999 /\ 1 <= month d <= 12
  /\ 1 <= day d <= days_in_month (year d) (month d).
Proof. unfold valid_date. rewrite !andb_true_iff, !Z.leb_le. lia. Qed.

Lemma valid_date_intro (d : datetime) :
  1 <= year d <= 9999 -> 1 <= month d <= 12 ->
  1 <= day d <= days_in_month (year d) (month d) ->
  valid_date d = true.
Proof. unfold valid_date. rewrite !andb_true_iff, !Z.leb_le. lia. Qed.

(** The day after a date is the date of the next ordinal. *)
Lemma add_one_day_spec (d : datetime) :
  valid_date d = true -> year d < 9999 ->
  exists p, add_one_day d = Some p
    /\ valid_date p = true
    /\ toordinal p = toordinal d + 1
    /\ hour p = hour d /\ minute p = minute d
    /\ second p = second d /\ microsecond p = microsecond d.
Proof.
  intros Hv Hy. apply valid_date_inv in Hv as (Hyear & Hmonth & Hday).
  unfold add_one_day.
  destruct (Z.leb_spec (day d + 1) (days_in_month (year d) (month d))) as [Hd|Hd].
  - replace (year d <=? 9999) with true by (symmetry; apply Z.leb_le; lia).
    eexists. split; [reflexivity|]. split; [apply valid_date_intro; simpl; lia|].
    unfold toordinal; simpl. split; [lia | auto].
  - assert (day d = days_in_month (year d) (month d)) as Hlast by lia.
    destruct (Z.leb_spec (month d + 1) 12) as [Hm|Hm].
    + replace (year d <=? 9999) with true by (symmetry; apply Z.leb_le; lia).
      eexists. split; [reflexivity|]. split.
      * pose proof (days_in_month_bounds (year d) (month d + 1)).
        apply valid_date_intro; simpl; lia.
      * unfold toordinal; simpl. split; [|auto].
        rewrite days_before_month_succ by lia. lia.
    + assert (month d = 12) as H12 by lia.
      replace (year d + 1 <=? 9999) with true by (symmetry; apply Z.leb_le; lia).
      eexists. split; [reflexivity|]. split.
      * pose proof (days_in_month_bounds (year d + 1) 1).
        apply valid_date_intro; simpl; lia.
      * unfold toordinal; simpl. split; [|auto].
        rewrite days_before_year_succ, Hlast, H12.
        unfold days_before_month, days_in_month; simpl.
        destruct (is_leap (year d)); lia.
Qed.

Lemma choose_random_item_inv (E : env) (items : list (gmap pystr pystr)) (w w' : world) r :
  choose_random_item E items w = (r, w') -> fs w' = fs w /\ calls w' = calls w.
Proof.
  unfold choose_random_item.
  destruct (items !! _); intros [= _ <-]; auto.
Qed.

Lemma undisturbed_reads {A} (m : M A) : reads m -> undisturbed m.
Proof. intros Hm w r w' H. apply Hm in H. subst. auto. Qed.

Lemma undisturbed_choose (E : env) items : undisturbed (choose_random_item E items).
Proof. intros w r w' H. apply choose_random_item_inv in H. exact H. Qed.

Lemma run_Ok {A} (m : M A) (w : world) (a : A) :
  fst (m w) = Ok a -> m w = (Ok a, snd (m w)).
Proof. destruct (m w) as [r w']. simpl. intros ->. reflexivity. Qed.

Lemma schedule_email_Ok_request (E : env) (subject body : pystr) (p : datetime)
    (utcoffset : datetime -> Z) (config : Config) (path : pystr)
    (w w' : world) (email_id : id_value) :
  schedule_email E subject body p utcoffset config path w = (Ok email_id, w') ->
  exists r, calls w' = calls w ++ [CreateEmail r] /\ create_email E r = Some email_id.
Proof.
  unfold schedule_email, bind, or_raise.
  destruct (astimezone_utc utcoffset p) as [t|]; [|discriminate].
  unfold ret at 1. unfold post_email.
  destruct (create_email E _) as [i|] eqn:Hc; [|discriminate].
  unfold write_text. cbn [fs calls rng_pos].
  destruct (can_write E (resolve E path)); [|discriminate].
  unfold ret. intros [= <- <-]. cbn [calls]. eauto.
Qed.

Lemma main_schedule_Ok_request (E : env) (w0 w1 : world) (s : scheduled) :
  main_schedule E w0 = (Ok s, w1) ->
  exists r, calls w1 = calls w0 ++ [CreateEmail r]
            /\ create_email E r = Some (sch_email_id s).
Proof.
  unfold main_schedule. intros H.
  apply bind_Ok_inv in H as (config & wa & Ha & H). apply reads_Config_load in Ha. subst wa.
  apply bind_Ok_inv in H as (off & wa & Ha & H). apply reads_or_raise in Ha. subst wa.
  apply bind_Ok_inv in H as (p & wa & Ha & H). apply reads_lift in Ha. subst wa.
  apply bind_Ok_inv in H as (qs & wa & Ha & H). apply reads_load_quotes in Ha. subst wa.
  apply bind_Ok_inv in H as (ps & wa & Ha & H). apply reads_load_json_data in Ha. subst wa.
  apply bind_Ok_inv in H as (quote & wa & Ha & H).
  apply choose_random_item_inv in Ha as [_ Hca].
  apply bind_Ok_inv in H as (product & wb & Hb & H).
  apply choose_random_item_inv in Hb as [_ Hcb].
  apply bind_Ok_inv in H as (u & wc & Hc & H).
  assert (wc = wb) as ->.
  { destruct (path_exists E _ wb); [apply reads_ret in Hc | apply reads_raise in Hc]; exact Hc. }
  apply bind_Ok_inv in H as (html & wc & Hc' & H). apply reads_generate_email_html in Hc'. subst wc.
  apply bind_Ok_inv in H as (text & wc & Hc' & H). apply reads_dict_getitem in Hc'. subst wc.
  apply bind_Ok_inv in H as (i & wd & Hd & H).
  unfold ret in H. injection H as <- <-. cbn [sch_email_id].
  apply schedule_email_Ok_request in Hd as (r & Hr & Hcreate).
  exists r. rewrite Hr, Hcb, Hca. auto.
Qed.

Lemma replace_time_in_range (d : datetime) (h m : Z) :
  0 <= h <= 23 -> 0 <= m <= 59 ->
  replace_time d h m
  = Ok {| year := year d; month := month d; day := day d;
          hour := h; minute := m; second := 0; microsecond := 0 |}.
Proof.
  intros Hh Hm. unfold replace_time.
  assert (fits_c_int h = true) as ->
    by (unfold fits_c_int; apply andb_true_iff; split; apply Z.leb_le; lia).
  assert (fits_c_int m = true) as ->
    by (unfold fits_c_int; apply andb_true_iff; split; apply Z.leb_le; lia).
  assert ((0 <=? h) && (h <=? 23) && (0 <=? m) && (m <=? 59) = true) as ->
    by (rewrite !andb_true_iff, !Z.leb_le; lia).
  reflexivity.
Qed.

(** Every time of day written with two digits each is read back as that
    hour and that minute (checked on the 24 x 60 forms). *)
Lemma parse_two_digits (h m : Z) :
  0 <= h <= 23 -> 0 <= m <= 59 -> parse_send_time (hhmm h m) = Some (h, m).
Proof.
  intros Hh Hm.
  assert (forallb (fun i =>
            forallb (fun j =>
              match parse_send_time (hhmm (Z.of_nat i) (Z.of_nat j)) with
              | Some (h', m') => (h' =? Z.of_nat i) && (m' =? Z.of_nat j)
              | None => false
              end) (seq 0 60)) (seq 0 24) = true) as Hall
    by (vm_compute; reflexivity).
  rewrite forallb_forall in Hall.
  specialize (Hall (Z.to_nat h) ltac:(apply in_seq; lia)).
  rewrite forallb_forall in Hall.
  specialize (Hall (Z.to_nat m) ltac:(apply in_seq; lia)).
  rewrite !Z2Nat.id in Hall by lia.
  destruct (parse_send_time _) as [[h' m']|]; [|discriminate].
  apply andb_true_iff in Hall as [H1 H2].
  apply Z.eqb_eq in H1, H2. congruence.
Qed.

(** Tomorrow at [h]:[m], for a send time written with two digits each. *)
Lemma publish_local_hhmm (now_local : datetime) (h m : Z) :
  valid_date now_local = true -> year now_local < 9999 ->
  0 <= h <= 23 -> 0 <= m <= 59 ->
  exists p,
    publish_local now_local (hhmm h m) = Ok p
    /\ valid_date p = true
    /\ toordinal p = toordinal now_local + 1
    /\ hour p = h /\ minute p = m /\ second p = 0 /\ microsecond p = 0.
Proof.
  intros Hv Hy Hh Hm.
  destruct (add_one_day_spec now_local Hv Hy) as (d & Hadd & Hvd & Hord & _).
  unfold publish_local.
  rewrite (parse_two_digits h m Hh Hm), Hadd, (replace_time_in_range d h m Hh Hm).
  eexists. split; [reflexivity|]. split; [exact Hvd|]. split; [exact Hord|].
  repeat split.
Qed.

(** The instant of a wall time on the day after [now_local]. *)
Lemma astimezone_utc_tomorrow (utcoffset : datetime -> Z) (now_local p : datetime) :
  valid_date now_local = true -> year now_local < 9999 ->
  toordinal p = toordinal now_local + 1 ->
  0 <= hour p <= 23 -> 0 <= minute p <= 59 ->
  second p = 0 -> microsecond p = 0 ->
  -86400 < utcoffset p < 86400 ->
  astimezone_utc utcoffset p
  = Some ((((toordinal now_local * 24 + hour p) * 60 + minute p) * 60 - utcoffset p)
          * 1000000).
Proof.
  intros Hv Hy Hord Hh Hm Hs Hmic Hoff.
  unfold astimezone_utc, utc_micros. rewrite Hs, Hmic, Hord.
  apply valid_date_inv in Hv as (Hyear & Hmonth & Hday).
  pose proof (days_before_year_bounds (year now_local) ltac:(lia)).
  pose proof (days_before_month_bounds (year now_local) (month now_local) Hmonth).
  pose proof (days_in_month_bounds (year now_local) (month now_local)).
  assert (1 <= toordinal now_local <= 3651400 + 335 + 31) by (unfold toordinal; lia).
  match goal with |- (if ?c then _ else _) = _ => replace c with true end.
  - f_equal. lia.
  - symmetry. rewrite andb_true_iff, Z.leb_le, Z.ltb_lt. unfold max_micros. lia.
Qed.

Lemma sends_at_bind {A B} (t : Z) (m : M A) (k : A -> M B) :
  undisturbed m -> (forall a, sends_at t (k a)) -> sends_at t (bind m k).
Proof.
  intros Hm Hk w r w'. unfold bind.
  destruct (m w) as [[a|e] w1] eqn:Hmw; apply Hm in Hmw as [_ Hc].
  - intros H. apply Hk in H. rewrite Hc in H. exact H.
  - intros [= _ <-]. left. exact Hc.
Qed.

(** Whatever its outcome, [schedule_email] sends one create-email request,
    which carries the publish time as an instant. *)
Lemma schedule_email_request (E : env) (subject body : pystr) (p : datetime)
    (utcoffset : datetime -> Z) (config : Config) (path : pystr) (t : Z)
    (w w' : world) (r : result id_value) :
  astimezone_utc utcoffset p = Some t ->
  schedule_email E subject body p utcoffset config path w = (r, w') ->
  exists q, calls w' = calls w ++ [CreateEmail q] /\ req_publish_date q = t.
Proof.
  intros Hutc. unfold schedule_email, bind, or_raise. rewrite Hutc.
  unfold ret at 1. unfold post_email.
  destruct (create_email E _) as [i|].
  - unfold write_text. cbn [fs calls rng_pos].
    destruct (can_write E (resolve E path)); intros [= _ <-]; cbn [calls]; eauto.
  - intros [= _ <-]. cbn [calls]. eauto.
Qed.

(** Once the configuration, the zone and the publish time are known, the
    only request [main_schedule] can send carries that publish time. *)
Lemma main_schedule_sends_at (E : env) (w : world) (config : Config)
    (utcoffset : datetime -> Z) (p : datetime) (t : Z) (r : result scheduled) (w' : world) :
  Config_load E (path_join (script_dir E) (lit "config.json")) w = (Ok config, w) ->
  zoneinfo E (timezone config) = Some utcoffset ->
  publish_local (now_in E (timezone config)) (send_time config) = Ok p ->
  astimezone_utc utcoffset p = Some t ->
  main_schedule E w = (r, w') ->
  calls w' = calls w
  \/ exists q, calls w' = calls w ++ [CreateEmail q] /\ req_publish_date q = t.
Proof.
  intros Hload Hzone Hpub Hutc. unfold main_schedule.
  rewrite (bind_Ok _ _ w w config Hload). cbv beta.
  rewrite (bind_Ok (or_raise NameError (zoneinfo E (timezone config))) _ w w utcoffset)
    by (rewrite Hzone; reflexivity).
  cbv beta.
  rewrite (bind_Ok (lift (publish_local (now_in E (timezone config)) (send_time config)))
             _ w w p) by (unfold lift; rewrite Hpub; reflexivity).
  cbv beta. clear Hload. revert w r w'.
  repeat (apply sends_at_bind;
          [ first [ apply undisturbed_choose
                  | apply undisturbed_reads;
                    first [ apply reads_load_quotes
                          | apply reads_load_json_data
                          | apply reads_generate_email_html
                          | apply reads_dict_getitem
                          | intros w r w'; destruct (path_exists E _ w);
                            [apply reads_ret | apply reads_raise] ] ]
          | intros ? ]).
  intros w r w'. unfold bind.
  destruct (schedule_email E _ _ _ _ _ _ w) as [[i|e] w1] eqn:Hs;
    apply (schedule_email_request E _ _ _ _ _ _ t _ _ _ Hutc) in Hs;
    intros [= _ <-]; right; exact Hs.
Qed.



(** The run of the example deployment: the request sent carries
    2024-01-11T07:00 UTC, which is 08:00 in a zone one hour east. *)
Example publish_instant_run :
  exists r,
    calls (snd (main_schedule env_app world_first)) = [CreateEmail r]
    /\ req_status r = lit "scheduled"
    /\ req_publish_date r
       = utc_micros 0 {| year := 2024; month := 1; day := 11; hour := 7; minute := 0;
                         second := 0; microsecond := 0 |}.
Proof. vm_compute. eexists. repeat split. Qed.

(** The scenario of the specification: 2024-01-10T23:00 local and send time
    [08:00] give 2024-01-11T08:00 local, which is 2024-01-11T07:00 UTC in a
    zone one hour east of UTC. *)
Example publish_local_example :
  publish_local example_now (lit "08:00")
  = Ok {| year := 2024; month := 1; day := 11; hour := 8; minute := 0;
          second := 0; microsecond := 0 |}
  /\ astimezone_utc (fun _ => 3600)
       {| year := 2024; month := 1; day := 11; hour := 8; minute := 0;
          second := 0; microsecond := 0 |}
     = Some (utc_micros 0 {| year := 2024; month := 1; day := 11; hour := 7; minute := 0;
                             second := 0; microsecond := 0 |}).
Proof. split; reflexivity. Qed.

(** ** Content pools *)

Lemma load_products_missing (E : env) (w : world) :
  is_http_url (data_path E "products.json") = false ->
  fs w !! resolve E (data_path E "products.json") = None ->
  load_products E w = (Raise FileNotFoundError, w).
Proof.
  intros Hlocal Hnone. unfold load_products, load_json_data. rewrite Hlocal.
  unfold bind, read_text. rewrite Hnone. reflexivity.
Qed.

Lemma load_products_undecodable (E : env) (w : world) (raw : pystr) :
  is_http_url (data_path E "products.json") = false ->
  fs w !! resolve E (data_path E "products.json") = Some raw ->
  json_array E (universal_newlines raw) = None ->
  load_products E w = (Raise JSONDecodeError, w).
Proof.
  intros Hlocal Hraw Hjson. unfold load_products, load_json_data. rewrite Hlocal.
  unfold bind, read_text, or_raise. rewrite Hraw, Hjson. reflexivity.
Qed.

(** A product pool that fails to load ends [main] before anything is done:
    either an earlier step has already raised, or the pool's own exception
    comes out. *)
Lemma main_products_raise (E : env) (w w' : world) (e : exn) :
  load_products E w = (Raise e, w') ->
  exists e',
    main E w = (Raise e', w)
    /\ (forall config utcoffset p q,
          Config_load E (path_join (script_dir E) (lit "config.json")) w = (Ok config, w) ->
          zoneinfo E (timezone config) = Some utcoffset ->
          publish_local (now_in E (timezone config)) (send_time config) = Ok p ->
          load_quotes E w = (Ok q, w) ->
          e' = e).
Proof.
  intros Hprod.
  pose proof (reads_load_json_data E _ _ _ _ Hprod) as Hw. subst w'.
  unfold main, main_schedule.
  unfold bind at 1. unfold bind at 1.
  destruct (Config_load E _ w) as [[config|e1] w1] eqn:H1;
    apply reads_Config_load in H1 as ?; subst w1;
    [|exists e1; split; [reflexivity | intros; congruence]].
  unfold bind at 1.
  destruct (zoneinfo E (timezone config)) as [off|] eqn:H2; cbn [or_raise];
    [|eexists; split; [reflexivity | intros ? ? ? ? [= <-]; congruence]].
  unfold ret at 1. unfold bind at 1, lift at 1.
  destruct (publish_local _ _) as [p|e1] eqn:H3;
    [|eexists; split; [reflexivity | intros ? ? ? ? [= <-]; congruence]].
  unfold bind at 1.
  destruct (load_quotes E w) as [[q|e1] w1] eqn:H4;
    apply reads_load_quotes in H4 as ?; subst w1;
    [|exists e1; split; [reflexivity | intros; congruence]].
  unfold bind at 1. rewrite Hprod. eauto.
Qed.

(** C7. When the local quote pool file is absent, loading the quotes does
    not fail and gives exactly the two hardcoded quotes.  The product pool
    has no such fallback: a missing file raises, as does a file that cannot
    be decoded, and whenever loading the product pool raises, [main] ends
    with an exception, the world untouched; the exception is the pool's
    own when the steps before it succeeded. *)
Theorem quote_pool_fallback_only (E : env) (w : world) :
  (fs w !! resolve E (data_path E "quotes.json") = None ->
     load_quotes E w = (Ok fallback_quotes, w) /\ length fallback_quotes = 2%nat)
  /\ (is_http_url (data_path E "products.json") = false ->
      fs w !! resolve E (data_path E "products.json") = None ->
      load_products E w = (Raise FileNotFoundError, w))
  /\ (forall raw,
        is_http_url (data_path E "products.json") = false ->
        fs w !! resolve E (data_path E "products.json") = Some raw ->
        json_array E (universal_newlines raw) = None ->
        load_products E w = (Raise JSONDecodeError, w))
  /\ (forall e w',
        load_products E w = (Raise e, w') ->
        exists e',
          main E w = (Raise e', w)
          /\ (forall config utcoffset p q,
                Config_load E (path_join (script_dir E) (lit "config.json")) w
                = (Ok config, w) ->
                zoneinfo E (timezone config) = Some utcoffset ->
                publish_local (now_in E (timezone config)) (send_time config) = Ok p ->
                load_quotes E w = (Ok q, w) ->
                e' = e)).
Proof.
  split; [|split; [|split]].
  - intros Hnone. split; [|reflexivity].
    unfold load_quotes, path_exists. rewrite Hnone.
    rewrite bool_decide_eq_false_2 by (intros [x Hx]; discriminate). reflexivity.
  - apply load_products_missing.
  - apply load_products_undecodable.
  - intros e w'. apply main_products_raise.
Qed.

Lemma quote_pool_fallback_only_witness :
  (load_quotes env_app example_world_without_products
   = (Ok fallback_quotes, example_world_without_products)
   /\ length fallback_quotes = 2%nat)
  /\ load_products env_app example_world_without_products
     = (Raise FileNotFoundError, example_world_without_products)
  /\ exists e', main env_app example_world_without_products
                = (Raise e', example_world_without_products).
Proof.
  pose proof (quote_pool_fallback_only env_app example_world_without_products)
    as (Hq & Hp & _ & Hmain).
  split; [apply Hq; reflexivity|].
  assert (load_products env_app example_world_without_products
          = (Raise FileNotFoundError, example_world_without_products)) as Hraise
    by (apply Hp; reflexivity).
  split; [exact Hraise|].
  destruct (Hmain _ _ Hraise) as (e' & He' & _). exists e'. exact He'.
Defined.

(** With the quote pool file absent the run goes through, on a fallback
    quote. *)
Example main_with_fallback_quotes :
  fs (example_world None) !! resolve env_app (data_path env_app "quotes.json") = None
  /\ fst (main env_app (example_world None)) = Ok tt
  /\ fst (main env_app example_world_without_products) = Raise FileNotFoundError.
Proof. vm_compute. auto. Qed.

(** ** The identifier file *)

Lemma schedule_email_Ok_inv (E : env) (subject body : pystr) (p : datetime)
    (utcoffset : datetime -> Z) (config : Config) (path : pystr)
    (w w' : world) (email_id : id_value) :
  schedule_email E subject body p utcoffset config path w = (Ok email_id, w') ->
  fs w' = <[resolve E path := py_str email_id]> (fs w)
  /\ (exists r, calls w' = calls w ++ [CreateEmail r])
  /\ can_write E (resolve E path) = true.
Proof.
  unfold schedule_email, bind, or_raise.
  destruct (astimezone_utc utcoffset p) as [t|]; [|discriminate].
  unfold ret at 1. unfold post_email.
  destruct (create_email E _) as [i|]; [|discriminate].
  unfold write_text. cbn [fs calls rng_pos].
  destruct (can_write E (resolve E path)); [|discriminate].
  unfold ret. intros [= <- <-]. cbn [fs calls]. eauto.
Qed.

Lemma main_schedule_Ok_inv (E : env) (w0 w1 : world) (s : scheduled) :
  main_schedule E w0 = (Ok s, w1) ->
  fs w1 = <[resolve E (lit ".last_email_id") := py_str (sch_email_id s)]> (fs w0)
  /\ (exists r, calls w1 = calls w0 ++ [CreateEmail r])
  /\ can_write E (resolve E (lit ".last_email_id")) = true.
Proof.
  unfold main_schedule. intros H.
  apply bind_Ok_inv in H as (config & wa & Ha & H). apply reads_Config_load in Ha. subst wa.
  apply bind_Ok_inv in H as (off & wa & Ha & H). apply reads_or_raise in Ha. subst wa.
  apply bind_Ok_inv in H as (p & wa & Ha & H). apply reads_lift in Ha. subst wa.
  apply bind_Ok_inv in H as (qs & wa & Ha & H). apply reads_load_quotes in Ha. subst wa.
  apply bind_Ok_inv in H as (ps & wa & Ha & H). apply reads_load_json_data in Ha. subst wa.
  apply bind_Ok_inv in H as (quote & wa & Ha & H).
  apply choose_random_item_inv in Ha as [Hfa Hca].
  apply bind_Ok_inv in H as (product & wb & Hb & H).
  apply choose_random_item_inv in Hb as [Hfb Hcb].
  apply bind_Ok_inv in H as (u & wc & Hc & H).
  assert (wc = wb) as ->.
  { destruct (path_exists E _ wb); [apply reads_ret in Hc | apply reads_raise in Hc]; exact Hc. }
  apply bind_Ok_inv in H as (html & wc & Hc' & H). apply reads_generate_email_html in Hc'. subst wc.
  apply bind_Ok_inv in H as (text & wc & Hc' & H). apply reads_dict_getitem in Hc'. subst wc.
  apply bind_Ok_inv in H as (i & wd & Hd & H).
  unfold ret in H. injection H as <- <-. cbn [sch_email_id].
  apply schedule_email_Ok_inv in Hd as (Hf & [r Hr] & Hw).
  rewrite Hf, Hfb, Hfa. split; [reflexivity|]. split; [|exact Hw].
  exists r. rewrite Hr, Hcb, Hca. reflexivity.
Qed.

Lemma append_report_row_inv (E : env) data config subject date_str (w w' : world) r :
  append_report_row E data config subject date_str w = (r, w') ->
  (exists e, r = Raise e /\ w' = w)
  \/ (r = Ok tt /\ can_write E (resolve E (reports_csv config)) = true
      /\ exists text, fs w' = <[resolve E (reports_csv config) := text]> (fs w)).
Proof.
  unfold append_report_row, append_text.
  destruct (can_write E _); intros [= <- <-]; [right | left]; cbn [fs]; eauto.
Qed.

Lemma report_previous_inv (E : env) (s : scheduled) (w w' : world) r :
  report_previous E s w = (r, w') ->
  fs w' = fs w
  \/ (r = Ok tt /\ can_write E (resolve E (reports_csv (sch_config s))) = true
      /\ exists text, fs w' = <[resolve E (reports_csv (sch_config s)) := text]> (fs w)).
Proof.
  unfold report_previous.
  destruct (path_exists E _ w); [|intros Hr; apply reads_ret in Hr; subst; auto].
  unfold bind at 1.
  destruct (read_text E _ w) as [[text|e] wa] eqn:Ha; apply reads_read_text in Ha as ?; subst wa;
    [|intros [= _ <-]; auto].
  destruct (negb _ && negb _); [|intros Hr; apply reads_ret in Hr; subst; auto].
  unfold bind at 1, retrieve_analytics at 1.
  destruct (get_analytics E _ _) as [data|]; [|intros [= _ <-]; auto].
  unfold bind at 1.
  destruct (sub_one_day _) as [y|]; cbn [or_raise]; [|intros [= _ <-]; auto].
  unfold ret at 1. intros Hr.
  apply append_report_row_inv in Hr as [(e & -> & ->) | (-> & Hw & row & Hfs)]; auto.
  right. split; [reflexivity|]. split; [exact Hw|]. exists row. exact Hfs.
Qed.

Lemma report_previous_Raise (E : env) (s : scheduled) (w w' : world) (e : exn) :
  report_previous E s w = (Raise e, w') -> fs w' = fs w.
Proof.
  intros H. apply report_previous_inv in H as [H | (H & _)]; [exact H | discriminate].
Qed.

(** When the file [main] reads holds the current identifier, or one that
    reads back as it, nothing is reported. *)
Lemma report_previous_skip (E : env) (s : scheduled) (w : world) (stored : pystr) :
  fs w !! resolve E (previous_email_id_path E) = Some stored ->
  strip (universal_newlines stored) = []
  \/ strip (universal_newlines stored) = py_str (sch_email_id s) ->
  report_previous E s w = (Ok tt, w).
Proof.
  intros Hstored Hback. unfold report_previous, path_exists.
  rewrite Hstored, bool_decide_eq_true_2 by eauto.
  unfold bind, read_text. rewrite Hstored.
  destruct Hback as [-> | ->]; [reflexivity|].
  rewrite pystr_eqb_refl, andb_false_r. reflexivity.
Qed.

Lemma is_space_digit (k : N) : (k < 10)%N -> is_space (48 + k) = false.
Proof.
  intros Hk.
  assert (k = 0 \/ k = 1 \/ k = 2 \/ k = 3 \/ k = 4 \/ k = 5 \/ k = 6 \/ k = 7
          \/ k = 8 \/ k = 9)%N as H by lia.
  repeat (destruct H as [-> | H]; [reflexivity|]). subst. reflexivity.
Qed.

Lemma lstrip_no_space (s : pystr) :
  Forall (fun c => is_space c = false) s -> lstrip s = s.
Proof. intros [|c s' Hc _]; simpl; [reflexivity | rewrite Hc; reflexivity]. Qed.

Lemma universal_newlines_no_space (s : pystr) :
  Forall (fun c => is_space c = false) s -> universal_newlines s = s.
Proof.
  induction 1 as [|c s Hc Hs IH]; simpl; [reflexivity|].
  destruct (N.eqb_spec c 13) as [-> | _]; [discriminate|]. f_equal. exact IH.
Qed.

(** An identifier without whitespace is read back as it was written. *)
Lemma read_back_no_space (s : pystr) :
  Forall (fun c => is_space c = false) s -> strip (universal_newlines s) = s.
Proof.
  intros H. rewrite universal_newlines_no_space by assumption.
  unfold strip, rstrip. rewrite (lstrip_no_space s H).
  rewrite lstrip_no_space by (apply Forall_rev; assumption).
  apply rev_involutive.
Qed.

Lemma read_back_int (z : Z) : strip (universal_newlines (str_of_Z z)) = str_of_Z z.
Proof.
  apply read_back_no_space.
  assert (forall n, Forall (fun c => is_space c = false) (str_of_N n)) as Hn.
  { intros n. unfold str_of_N. apply digits_from_chars; [apply is_space_digit | constructor]. }
  unfold str_of_Z. destruct (z <? 0); [constructor; [reflexivity|]|]; apply Hn.
Qed.

(** C10, as stated: with the two paths naming one file, nothing is ever
    reported.  An identifier with a leading space is written as it is and
    read back stripped; the two differ, and the stripped identifier is
    reported on. *)
Lemma padded_id_is_reported :
  resolve env_app_padded (lit ".last_email_id")
  = resolve env_app_padded (previous_email_id_path env_app_padded)
  /\ fst (main env_app_padded (example_world None)) = Ok tt
  /\ (exists r, calls (snd (main env_app_padded (example_world None)))
                = [CreateEmail r; GetAnalytics (lit "42")])
  /\ fs (snd (main env_app_padded (example_world None))) !! lit "/app/.last_email_id"
     = Some (lit " 42")
  /\ fs (example_world None) !! lit "/app/analytics_report.csv" = None
  /\ is_Some (fs (snd (main env_app_padded (example_world None)))
                !! lit "/app/analytics_report.csv").
Proof.
  split; [reflexivity|]. split; [vm_compute; reflexivity|].
  split; [eexists; vm_compute; reflexivity|].
  split; [vm_compute; reflexivity|]. split; [reflexivity|].
  vm_compute. eauto.
Qed.

(** C10. Whenever [schedule_email] returns, the file at its identifier
    path holds exactly the new identifier.  In [main], once the email is
    scheduled, if that path names the file [main] reads as the previous
    identifier and the identifier reads back as itself (or as nothing),
    the guard is false: the rest of the run sends no analytics request,
    appends nothing, and leaves the world as [schedule_email] left it. *)
Theorem schedule_write_hides_previous_id (E : env) :
  (forall subject body p utcoffset config path w w' email_id,
      schedule_email E subject body p utcoffset config path w = (Ok email_id, w') ->
      fs w' !! resolve E path = Some (py_str email_id))
  /\ (forall w0 w1 s,
        main_schedule E w0 = (Ok s, w1) ->
        resolve E (lit ".last_email_id") = resolve E (previous_email_id_path E) ->
        strip (universal_newlines (py_str (sch_email_id s))) = []
        \/ strip (universal_newlines (py_str (sch_email_id s))) = py_str (sch_email_id s) ->
        report_previous E s w1 = (Ok tt, w1)
        /\ main E w0 = (Ok tt, w1)
        /\ (exists r, calls w1 = calls w0 ++ [CreateEmail r])
        /\ fs w1 = <[resolve E (previous_email_id_path E) := py_str (sch_email_id s)]> (fs w0)).
Proof.
  split.
  - intros subject body p utcoffset config path w w' email_id H.
    apply schedule_email_Ok_inv in H as (Hfs & _). rewrite Hfs. apply lookup_insert_eq.
  - intros w0 w1 s Hsched Hsame Hback.
    pose proof (main_schedule_Ok_inv E w0 w1 s Hsched) as (Hfs & Hcalls & Hwrite).
    rewrite Hsame in Hfs, Hwrite.
    assert (fs w1 !! resolve E (previous_email_id_path E) = Some (py_str (sch_email_id s)))
      as Hstored by (rewrite Hfs; apply lookup_insert_eq).
    pose proof (report_previous_skip E s w1 _ Hstored Hback) as Hskip.
    assert (main_report E s w1 = (Ok tt, w1)) as Hreport.
    { unfold main_report. rewrite (bind_Ok _ _ _ _ _ Hskip).
      unfold write_text. rewrite Hwrite, (insert_id _ _ _ Hstored).
      destruct w1; reflexivity. }
    split; [exact Hskip|]. split; [|split; assumption].
    unfold main. rewrite (bind_Ok _ _ _ _ _ Hsched). exact Hreport.
Qed.

Lemma schedule_write_hides_previous_id_witness :
  report_previous env_app (example_scheduled (IdStr (lit "42")))
    (snd (main_schedule env_app world_41))
  = (Ok tt, snd (main_schedule env_app world_41))
  /\ main env_app world_41 = (Ok tt, snd (main_schedule env_app world_41))
  /\ (exists r, calls (snd (main_schedule env_app world_41))
                = calls world_41 ++ [CreateEmail r])
  /\ fs (snd (main_schedule env_app world_41))
     = <[resolve env_app (previous_email_id_path env_app)
         := py_str (sch_email_id (example_scheduled (IdStr (lit "42"))))]> (fs world_41).
Proof.
  refine (proj2 (schedule_write_hides_previous_id env_app) world_41
            (snd (main_schedule env_app world_41))
            (example_scheduled (IdStr (lit "42"))) _ _ _).
  - vm_cast_no_check (@eq_refl _ (main_schedule env_app world_41)).
  - reflexivity.
  - right. reflexivity.
Defined.

Example same_directory_run :
  fs (snd (main env_app world_41)) !! lit "/app/.last_email_id" = Some (lit "42")
  /\ fs (snd (main env_app world_41)) !! lit "/app/analytics_report.csv" = None.
Proof. vm_compute. auto. Qed.

(** C1, as the specification states it: when the run fails after the email
    is scheduled, no identifier file has changed and the new identifier is
    written nowhere.  Run from another directory than the script's, with
    the analytics request failing, the run ends with the new identifier in
    the working directory's [.last_email_id]; run from the script's
    directory, with a provider identifier that has a leading space, it ends
    with the new identifier in place of the previous one. *)
Lemma failed_run_keeps_new_id :
  (fst (main env_home_failing world_41) = Raise RequestError
   /\ (exists r, calls (snd (main env_home_failing world_41))
                 = [CreateEmail r; GetAnalytics (lit "41")])
   /\ fs world_41 !! resolve env_home_failing (lit ".last_email_id") = None
   /\ fs (snd (main env_home_failing world_41))
        !! resolve env_home_failing (lit ".last_email_id") = Some (lit "42"))
  /\ (fst (main env_app_padded_failing world_41) = Raise RequestError
      /\ (exists r, calls (snd (main env_app_padded_failing world_41))
                    = [CreateEmail r; GetAnalytics (lit "42")])
      /\ fs world_41
           !! resolve env_app_padded_failing (previous_email_id_path env_app_padded_failing)
         = Some (lit "41")
      /\ fs (snd (main env_app_padded_failing world_41))
           !! resolve env_app_padded_failing (previous_email_id_path env_app_padded_failing)
         = Some (lit " 42")).
Proof.
  split.
  - split; [vm_compute; reflexivity|]. split; [eexists; vm_compute; reflexivity|].
    split; vm_compute; reflexivity.
  - split; [vm_compute; reflexivity|]. split; [eexists; vm_compute; reflexivity|].
    split; vm_compute; reflexivity.
Qed.

(** C1. When the email is scheduled and the rest of the run then fails
    (the analytics request, the date of the row or the CSV append), [main]
    fails with that exception.  [schedule_email] has by then written the
    new identifier to its own [.last_email_id], and nothing else.  The
    failed rest of the run does not change the identifier file [main]
    reads: it keeps its content from before the run when
    [schedule_email]'s path names another file, and holds the new
    identifier when both paths name the same file.  When that file is
    writable no file at all changes after scheduling. *)
Theorem report_failure_keeps_schedule_write (E : env) (w0 w1 w2 : world)
    (s : scheduled) (e : exn) :
  main_schedule E w0 = (Ok s, w1) ->
  main_report E s w1 = (Raise e, w2) ->
  main E w0 = (Raise e, w2)
  /\ fs w1 = <[resolve E (lit ".last_email_id") := py_str (sch_email_id s)]> (fs w0)
  /\ fs w2 !! resolve E (previous_email_id_path E)
     = fs w1 !! resolve E (previous_email_id_path E)
  /\ (resolve E (lit ".last_email_id") <> resolve E (previous_email_id_path E) ->
      fs w2 !! resolve E (previous_email_id_path E)
      = fs w0 !! resolve E (previous_email_id_path E))
  /\ (resolve E (lit ".last_email_id") = resolve E (previous_email_id_path E) ->
      fs w2 !! resolve E (previous_email_id_path E) = Some (py_str (sch_email_id s)))
  /\ (can_write E (resolve E (previous_email_id_path E)) = true -> fs w2 = fs w1).
Proof.
  intros Hsched Hreport.
  set (sched_path := resolve E (lit ".last_email_id")).
  set (main_path := resolve E (previous_email_id_path E)).
  pose proof (main_schedule_Ok_inv E w0 w1 s Hsched) as (Hfs & _ & _).
  fold sched_path in Hfs.
  assert (fs w2 !! main_path = fs w1 !! main_path
          /\ (can_write E main_path = true -> fs w2 = fs w1)) as [Hkeep Hall].
  { unfold main_report in Hreport.
    apply bind_Raise_inv in Hreport as [Hprev | (u & wa & Hprev & Hwrite)].
    - apply report_previous_Raise in Hprev. rewrite Hprev. auto.
    - unfold write_text in Hwrite. fold main_path in Hwrite.
      destruct (can_write E main_path) eqn:Hcan; [discriminate|].
      injection Hwrite as _ <-. split; [|discriminate].
      apply report_previous_inv in Hprev as [-> | (_ & Hw & text & ->)]; [reflexivity|].
      apply lookup_insert_ne. intros Heq. rewrite Heq in Hw. congruence. }
  split; [unfold main; rewrite (bind_Ok _ _ _ _ _ Hsched); exact Hreport|].
  split; [exact Hfs|]. split; [exact Hkeep|]. split; [|split; [|exact Hall]].
  - intros Hne. rewrite Hkeep, Hfs. apply lookup_insert_ne, Hne.
  - intros Heq. rewrite Hkeep, Hfs, Heq. apply lookup_insert_eq.
Qed.

Lemma report_failure_keeps_schedule_write_witness :
  main env_home_failing world_41
  = (Raise RequestError,
     snd (main_report env_home_failing (example_scheduled (IdStr (lit "42")))
            (snd (main_schedule env_home_failing world_41))))
  /\ fs (snd (main_schedule env_home_failing world_41))
     = <[resolve env_home_failing (lit ".last_email_id")
         := py_str (sch_email_id (example_scheduled (IdStr (lit "42"))))]> (fs world_41)
  /\ fs (snd (main_report env_home_failing (example_scheduled (IdStr (lit "42")))
                (snd (main_schedule env_home_failing world_41))))
       !! resolve env_home_failing (previous_email_id_path env_home_failing)
     = fs world_41 !! resolve env_home_failing (previous_email_id_path env_home_failing).
Proof.
  pose proof (report_failure_keeps_schedule_write env_home_failing world_41
                (snd (main_schedule env_home_failing world_41))
                (snd (main_report env_home_failing (example_scheduled (IdStr (lit "42")))
                        (snd (main_schedule env_home_failing world_41))))
                (example_scheduled (IdStr (lit "42"))) RequestError) as H.
  destruct H as (Hmain & Hfs & _ & Hother & _).
  - vm_cast_no_check (@eq_refl _ (main_schedule env_home_failing world_41)).
  - vm_cast_no_check
      (@eq_refl _ (main_report env_home_failing (example_scheduled (IdStr (lit "42")))
                     (snd (main_schedule env_home_failing world_41)))).
  - split; [exact Hmain|]. split; [exact Hfs|]. apply Hother. discriminate.
Defined.

Example failed_report_run :
  fst (main env_home_failing world_41) = Raise RequestError
  /\ fs (snd (main env_home_failing world_41)) !! lit "/home/.last_email_id"
     = Some (lit "42")
  /\ fs (snd (main env_home_failing world_41)) !! lit "/app/.last_email_id"
     = Some (lit "41").
Proof. vm_compute. auto. Qed.

(** C2.  The script run from its own directory, with [41] persisted by the
    previous run and [42] assigned by the provider in this one:
    [schedule_email] overwrites [.last_email_id] with [42] before [main]
    reads it, the guard compares [42] with [42], no analytics request is
    sent and no row is appended.  Run from another directory, the two
    paths name different files, and the analytics of [41] are fetched and
    one row (after the header) is appended. *)
Theorem previous_id_overwritten_before_report :
  (resolve env_app (lit ".last_email_id") = resolve env_app (previous_email_id_path env_app)
   /\ fs world_41 !! resolve env_app (previous_email_id_path env_app) = Some (lit "41")
   /\ fst (main env_app world_41) = Ok tt
   /\ (exists r, calls (snd (main env_app world_41)) = [CreateEmail r])
   /\ fs (snd (main env_app world_41)) !! resolve env_app (lit "analytics_report.csv") = None
   /\ fs (snd (main env_app world_41)) !! resolve env_app (previous_email_id_path env_app)
      = Some (lit "42"))
  /\ (resolve env_home (lit ".last_email_id")
      <> resolve env_home (previous_email_id_path env_home)
      /\ fst (main env_home world_41) = Ok tt
      /\ (exists r, calls (snd (main env_home world_41))
                    = [CreateEmail r; GetAnalytics (lit "41")])
      /\ fs (snd (main env_home world_41)) !! resolve env_home (lit "analytics_report.csv")
         = Some (csv_row report_headers
                 ++ csv_row (report_row example_analytics (subject_of fallback_text_light)
                               (lit "2024-01-09")))
      /\ fs (snd (main env_home world_41)) !! resolve env_home (previous_email_id_path env_home)
         = Some (lit "42")).
Proof.
  split.
  - split; [reflexivity|]. split; [reflexivity|]. split; [vm_compute; reflexivity|].
    split; [eexists; vm_compute; reflexivity|]. split; vm_compute; reflexivity.
  - split; [vm_compute; discriminate|]. split; [vm_compute; reflexivity|].
    split; [eexists; vm_compute; reflexivity|]. split; vm_compute; reflexivity.
Qed.

(* ================================================================== *)
(** * Further properties of the script *)

(** ** Subject and links *)

(** X1. The subject never exceeds 43 characters: two for the marker and
    the space, at most 40 of the quote, one for the ellipsis; up to 40
    characters of quote it is the quote's length plus two. *)
Theorem subject_length (quote_text : pystr) :
  length (subject_of quote_text) = Nat.min (length quote_text + 2) 43.
Proof.
  unfold subject_of. destruct (Nat.ltb_spec 40 (length quote_text)) as [H|H].
  - rewrite !length_app, length_firstn. cbn [length]. lia.
  - rewrite length_app. cbn [length]. lia.
Qed.

(** X2. [append_utm] does not look for parameters already present: its
    result always holds a [?], so instrumenting a link a second time adds
    the three parameters again, after an [&]. *)
Theorem append_utm_twice (url : pystr) (config : Config) :
  In 63%N (append_utm url config)
  /\ append_utm (append_utm url config) config
     = append_utm url config ++ lit "&" ++ utm_params config.
Proof.
  assert (In 63%N (append_utm url config)) as Hin.
  { unfold append_utm. destruct (contains_char 63%N url) eqn:Hc.
    - apply contains_char_In in Hc. apply in_or_app. left. exact Hc.
    - apply in_or_app. right. left. reflexivity. }
  split; [exact Hin|].
  apply contains_char_In in Hin.
  unfold append_utm at 1. rewrite Hin. reflexivity.
Qed.

(** ** [str.replace] *)

Lemma occurs_tail (tok s : pystr) (c : N) : occurs tok s -> occurs tok (c :: s).
Proof. intros (a & b & ->). exists (c :: a), b. reflexivity. Qed.

Lemma replace_from_absent (tok v s : pystr) :
  tok <> [] -> ~ occurs tok s -> replace_from tok v 0 s = s.
Proof.
  intros Hne. induction s as [|c s IH]; intros Hno; [reflexivity|].
  cbn [replace_from].
  destruct (startswith tok (c :: s)) eqn:Hp.
  - apply startswith_prefix in Hp as [r Hr]. exfalso. apply Hno.
    exists [], r. exact Hr.
  - f_equal. apply IH. intros H. apply Hno, occurs_tail, H.
Qed.

(** X3. Replacing a token that does not occur changes nothing: a template
    without a given placeholder comes out of that replacement as it went
    in, whatever the value. *)
Theorem replace_absent (s tok v : pystr) :
  tok <> [] -> ~ occurs tok s -> replace s tok v = s.
Proof.
  intros Hne Hno. destruct tok as [|x tok]; [congruence|].
  apply replace_from_absent; assumption.
Qed.

Lemma replace_absent_witness :
  replace (lit "<p>Bonjour</p>") (lit "{{NAME}}") (lit "Ada") = lit "<p>Bonjour</p>".
Proof.
  apply (replace_absent (lit "<p>Bonjour</p>") (lit "{{NAME}}") (lit "Ada")).
  - discriminate.
  - apply (quiet_no_occurrence (lit "{{NAME}}")); [discriminate | reflexivity].
Defined.

(** ** The send time *)

Lemma split_from_nonempty (sep : N) (acc s : pystr) : split_from sep acc s <> [].
Proof.
  revert acc; induction s as [|c s IH]; intros acc; simpl; [discriminate|].
  destruct (N.eqb c sep); [discriminate | apply IH].
Qed.

Lemma split_from_no_sep (sep : N) (acc s : pystr) :
  ~ In sep s -> split_from sep acc s = [rev acc ++ s].
Proof.
  revert acc; induction s as [|c s IH]; intros acc Hno; simpl.
  - rewrite app_nil_r. reflexivity.
  - destruct (N.eqb_spec c sep) as [->|Hne]; [exfalso; apply Hno; left; reflexivity|].
    rewrite IH by (intros H; apply Hno; right; exact H).
    simpl. rewrite <- app_assoc. reflexivity.
Qed.

Lemma split_from_single (sep : N) (acc s y : pystr) :
  split_from sep acc s = [y] -> ~ In sep s /\ y = rev acc ++ s.
Proof.
  revert acc; induction s as [|c s IH]; intros acc; simpl.
  - intros [= <-]. rewrite app_nil_r. auto.
  - destruct (N.eqb_spec c sep) as [->|Hne].
    + intros [= _ H]. exfalso. exact (split_from_nonempty _ _ _ H).
    + intros H. apply IH in H as [Hno ->]. split.
      * intros [Heq | Hin]; [congruence | auto].
      * simpl. rewrite <- app_assoc. reflexivity.
Qed.

Lemma split_from_two (sep : N) (acc s x y : pystr) :
  split_from sep acc s = [x; y] ->
  exists a, s = a ++ sep :: y /\ ~ In sep a /\ ~ In sep y /\ x = rev acc ++ a.
Proof.
  revert acc; induction s as [|c s IH]; intros acc; simpl; [discriminate|].
  destruct (N.eqb_spec c sep) as [->|Hne].
  - intros [= <- H]. apply split_from_single in H as [Hno ->].
    exists []. simpl. rewrite app_nil_r. auto.
  - intros H. apply IH in H as (a & -> & Ha & Hy & ->).
    exists (c :: a). split; [reflexivity|]. split.
    + intros [Heq | Hin]; [congruence | auto].
    + split; [exact Hy|]. simpl. rewrite <- app_assoc. reflexivity.
Qed.

Lemma split_from_two_intro (sep : N) (acc a b : pystr) :
  ~ In sep a -> ~ In sep b ->
  split_from sep acc (a ++ sep :: b) = [rev acc ++ a; b].
Proof.
  revert acc; induction a as [|c a IH]; intros acc Ha Hb; simpl.
  - rewrite N.eqb_refl, app_nil_r. rewrite split_from_no_sep by assumption. reflexivity.
  - destruct (N.eqb_spec c sep) as [->|Hne]; [exfalso; apply Ha; left; reflexivity|].
    rewrite IH by (try assumption; intros H; apply Ha; right; exact H).
    simpl. rewrite <- app_assoc. reflexivity.
Qed.

(** X4. A send time is accepted exactly when it has one colon, with an
    integer on each side of it: none, or two or more colons, or a side
    that [int] refuses, is the [ValueError] of line 265.  What [int]
    accepts is [py_int]: whitespace around, a sign, decimal digits of any
    script with single underscores between them, at most 4300 of them. *)
Theorem parse_send_time_spec (s : pystr) (h m : Z) :
  parse_send_time s = Some (h, m)
  <-> exists a b,
        s = a ++ 58%N :: b /\ ~ In 58%N a /\ ~ In 58%N b
        /\ py_int a = Some h /\ py_int b = Some m.
Proof.
  unfold parse_send_time, split. split.
  - destruct (split_from 58%N [] s) as [|x [|y [|z l]]] eqn:Hs; simpl;
      try discriminate.
    + destruct (py_int x); discriminate.
    + destruct (py_int x) as [hx|] eqn:Hx; [|discriminate].
      destruct (py_int y) as [my|] eqn:Hy; [|discriminate].
      intros [= <- <-]. apply split_from_two in Hs as (a & -> & Ha & Hb & ->).
      exists a, y. auto.
    + destruct (py_int x); [|discriminate]. destruct (py_int y); [|discriminate].
      destruct (py_int z); discriminate.
  - intros (a & b & -> & Ha & Hb & Hh & Hm).
    rewrite split_from_two_intro by assumption. simpl. rewrite Hh, Hm. reflexivity.
Qed.

(** X5. Every time of day written [HH:MM] with two digits each is read
    back as that hour and that minute. *)
Theorem parse_send_time_two_digits (h m : Z) :
  0 <= h <= 23 -> 0 <= m <= 59 ->
  parse_send_time (zfill 2 (str_of_Z h) ++ [58%N] ++ zfill 2 (str_of_Z m)) = Some (h, m).
Proof. exact (parse_two_digits h m). Qed.

Lemma parse_send_time_two_digits_witness :
  parse_send_time (zfill 2 (str_of_Z 7) ++ [58%N] ++ zfill 2 (str_of_Z 5)) = Some (7, 5).
Proof. apply (parse_send_time_two_digits 7 5); lia. Defined.

(** X6. The publish time has no silent fallback.  A send time that parses
    to an hour outside 0-23 or a minute outside 0-59 fails in
    [datetime.replace]: with an [OverflowError] when the hour or the
    minute does not fit a C [int], with a [ValueError] otherwise.  On the
    last day of year 9999 the day after is an [OverflowError], whatever
    the hour and the minute. *)
Theorem publish_local_errors (now_local : datetime) (send_time : pystr) (h m : Z) :
  parse_send_time send_time = Some (h, m) ->
  valid_date now_local = true ->
  (year now_local < 9999 ->
   - 2147483648 <= h <= 2147483647 -> - 2147483648 <= m <= 2147483647 ->
   ~ (0 <= h <= 23 /\ 0 <= m <= 59) ->
   publish_local now_local send_time = Raise ValueError)
  /\ (year now_local < 9999 ->
      ~ (- 2147483648 <= h <= 2147483647 /\ - 2147483648 <= m <= 2147483647) ->
      publish_local now_local send_time = Raise OverflowError)
  /\ (year now_local = 9999 -> month now_local = 12 -> day now_local = 31 ->
      publish_local now_local send_time = Raise OverflowError).
Proof.
  intros Hparse Hvalid. unfold publish_local. rewrite Hparse.
  split; [|split].
  - intros Hy Hh Hm Hrange.
    destruct (add_one_day_spec now_local Hvalid Hy) as (d & -> & _).
    unfold replace_time.
    assert (fits_c_int h = true) as ->
      by (unfold fits_c_int; apply andb_true_iff; split; apply Z.leb_le; lia).
    assert (fits_c_int m = true) as ->
      by (unfold fits_c_int; apply andb_true_iff; split; apply Z.leb_le; lia).
    cbn [andb negb].
    destruct ((0 <=? h) && (h <=? 23) && (0 <=? m) && (m <=? 59)) eqn:Hc; [|reflexivity].
    exfalso. apply Hrange. rewrite !andb_true_iff, !Z.leb_le in Hc. lia.
  - intros Hy Hfit.
    destruct (add_one_day_spec now_local Hvalid Hy) as (d & -> & _).
    unfold replace_time.
    destruct (fits_c_int h && fits_c_int m) eqn:Hc; [|reflexivity].
    exfalso. apply Hfit. unfold fits_c_int in Hc.
    rewrite !andb_true_iff, !Z.leb_le in Hc. lia.
  - intros Hy Hm Hd. unfold add_one_day. rewrite Hy, Hm, Hd. reflexivity.
Qed.

Lemma publish_local_errors_witness :
  publish_local example_now (lit "24:00") = Raise ValueError
  /\ publish_local example_now (lit "2147483648:00") = Raise OverflowError
  /\ publish_local
       {| year := 9999; month := 12; day := 31; hour := 23; minute := 0;
          second := 0; microsecond := 0 |} (lit "08:00")
     = Raise OverflowError.
Proof.
  split; [|split].
  - refine (proj1 (publish_local_errors example_now (lit "24:00") 24 0 _ _) _ _ _ _);
      try reflexivity; lia.
  - refine (proj1 (proj2 (publish_local_errors example_now (lit "2147483648:00")
                            2147483648 0 _ _)) _ _);
      try reflexivity; lia.
  - refine (proj2 (proj2 (publish_local_errors
                            {| year := 9999; month := 12; day := 31; hour := 23;
                               minute := 0; second := 0; microsecond := 0 |}
                            (lit "08:00") 8 0 _ _)) _ _ _);
      reflexivity.
Defined.

(** ** Yesterday and tomorrow *)

(** X7. The date of the report row, [now_local - timedelta(days=1)], is
    the date of the previous ordinal, at the same time of day; it exists
    for every date but 0001-01-01, where the subtraction overflows. *)
Theorem sub_one_day_spec (d : datetime) :
  valid_date d = true ->
  (year d = 1 /\ month d = 1 /\ day d = 1 -> sub_one_day d = None)
  /\ (~ (year d = 1 /\ month d = 1 /\ day d = 1) ->
      exists p, sub_one_day d = Some p
        /\ valid_date p = true
        /\ toordinal p = toordinal d - 1
        /\ hour p = hour d /\ minute p = minute d
        /\ second p = second d /\ microsecond p = microsecond d).
Proof.
  intros Hv. apply valid_date_inv in Hv as (Hyear & Hmonth & Hday).
  unfold sub_one_day. split.
  - intros (-> & -> & ->). reflexivity.
  - intros Hfirst.
    destruct (Z.leb_spec 1 (day d - 1)) as [Hd|Hd].
    + replace (1 <=? year d) with true by (symmetry; apply Z.leb_le; lia).
      eexists. split; [reflexivity|]. split; [apply valid_date_intro; simpl; lia|].
      unfold toordinal; simpl. split; [lia | auto].
    + assert (day d = 1) as Hone by lia.
      destruct (Z.leb_spec 1 (month d - 1)) as [Hm|Hm].
      * replace (1 <=? year d) with true by (symmetry; apply Z.leb_le; lia).
        eexists. split; [reflexivity|]. split.
        -- pose proof (days_in_month_bounds (year d) (month d - 1)).
           apply valid_date_intro; simpl; lia.
        -- unfold toordinal; simpl. split; [|auto].
           pose proof (days_before_month_succ (year d) (month d - 1) ltac:(lia)) as Hs.
           replace (month d - 1 + 1) with (month d) in Hs by lia. lia.
      * assert (month d = 1) as Hjan by lia.
        replace (1 <=? year d - 1) with true by (symmetry; apply Z.leb_le; lia).
        eexists. split; [reflexivity|]. split.
        -- pose proof (days_in_month_bounds (year d - 1) 12).
           apply valid_date_intro; simpl; try lia.
           unfold days_in_month; simpl. lia.
        -- unfold toordinal; simpl. split; [|auto].
           pose proof (days_before_year_succ (year d - 1)) as Hs.
           replace (year d - 1 + 1) with (year d) in Hs by lia.
           rewrite Hs, Hone, Hjan.
           unfold days_before_month; simpl.
           destruct (is_leap (year d - 1)); lia.
Qed.

Lemma sub_one_day_spec_witness :
  exists p, sub_one_day example_now = Some p
    /\ valid_date p = true
    /\ toordinal p = toordinal example_now - 1
    /\ hour p = hour example_now /\ minute p = minute example_now
    /\ second p = second example_now /\ microsecond p = microsecond example_now.
Proof.
  apply (sub_one_day_spec example_now).
  - reflexivity.
  - intros (H & _). discriminate.
Defined.

(** X8. The day before the day after a date is that date: the two date
    steps of [main] (line 266 and line 310) undo each other, also across
    the end of a month, of February and of a year. *)
Theorem sub_add_one_day (d : datetime) :
  valid_date d = true -> year d < 9999 ->
  exists p, add_one_day d = Some p /\ sub_one_day p = Some d.
Proof.
  intros Hv Hy. apply valid_date_inv in Hv as (Hyear & Hmonth & Hday).
  destruct d as [y m dd hh mi ss us]. simpl in *.
  unfold add_one_day, sub_one_day, with_date. simpl.
  destruct (Z.leb_spec (dd + 1) (days_in_month y m)) as [Hd|Hd].
  - replace (y <=? 9999) with true by (symmetry; apply Z.leb_le; lia).
    eexists. split; [reflexivity|]. simpl.
    replace (1 <=? dd + 1 - 1) with true by (symmetry; apply Z.leb_le; lia).
    replace (1 <=? y) with true by (symmetry; apply Z.leb_le; lia).
    do 2 f_equal. lia.
  - assert (dd = days_in_month y m) as -> by lia.
    destruct (Z.leb_spec (m + 1) 12) as [Hm|Hm].
    + replace (y <=? 9999) with true by (symmetry; apply Z.leb_le; lia).
      eexists. split; [reflexivity|]. simpl.
      replace (1 <=? m + 1 - 1) with true by (symmetry; apply Z.leb_le; lia).
      replace (1 <=? y) with true by (symmetry; apply Z.leb_le; lia).
      replace (m + 1 - 1) with m by lia. reflexivity.
    + assert (m = 12) as -> by lia.
      replace (y + 1 <=? 9999) with true by (symmetry; apply Z.leb_le; lia).
      eexists. split; [reflexivity|]. simpl.
      replace (1 <=? y + 1 - 1) with true by (symmetry; apply Z.leb_le; lia).
      replace (y + 1 - 1) with y by lia. reflexivity.
Qed.

Lemma sub_add_one_day_witness :
  exists p,
    add_one_day {| year := 2024; month := 2; day := 29; hour := 23; minute := 0;
                   second := 0; microsecond := 0 |} = Some p
    /\ sub_one_day p
       = Some {| year := 2024; month := 2; day := 29; hour := 23; minute := 0;
                 second := 0; microsecond := 0 |}.
Proof.
  apply (sub_add_one_day {| year := 2024; month := 2; day := 29; hour := 23; minute := 0;
                            second := 0; microsecond := 0 |}).
  - reflexivity.
  - vm_compute. reflexivity.
Defined.

(** ** Configuration and content selection *)

(** X9. [random.choice] on a pool: an empty pool is an [IndexError] and
    nothing changes; otherwise the item returned is one of the pool, and
    exactly one random draw is consumed. *)
Theorem choose_random_item_spec (E : env) (items : list (gmap pystr pystr)) (w : world) :
  match items with
  | [] => choose_random_item E items w = (Raise IndexError, w)
  | _ :: _ =>
      exists item,
        In item items
        /\ choose_random_item E items w
           = (Ok item, {| fs := fs w; calls := calls w; rng_pos := S (rng_pos w) |})
  end.
Proof.
  unfold choose_random_item. destruct items as [|x items]; [reflexivity|].
  set (i := (draw E (rng_pos w) mod length (x :: items))%nat).
  assert (i < length (x :: items))%nat as Hi
    by (apply Nat.mod_upper_bound; discriminate).
  destruct (lookup_lt_is_Some_2 (x :: items) i Hi) as [item Hitem].
  rewrite Hitem. exists item. split; [|reflexivity].
  apply list_elem_of_In, list_elem_of_lookup. eauto.
Qed.

(** X10. [Config.load] on a file that decodes to an object of strings
    (the [newsletter_id] may be [null]).  It never changes anything; a
    missing file is a [FileNotFoundError]; an object without the API key
    is a [KeyError] on [buttondown_api_key]; with the key the
    configuration is returned, no other field being required: a field the
    object lacks takes its default, the send time [08:00] and the zone
    [Europe/Paris] among them, and a missing newsletter identifier stays
    unset. *)
Theorem Config_load_spec (E : env) (path : pystr) (w : world) :
  (forall r w', Config_load E path w = (r, w') -> w' = w)
  /\ (fs w !! resolve E path = None ->
      Config_load E path w = (Raise FileNotFoundError, w))
  /\ (forall raw data,
        fs w !! resolve E path = Some raw ->
        json_object E (universal_newlines raw) = Some data ->
        data !! lit "buttondown_api_key" = None ->
        Config_load E path w = (Raise (KeyError (lit "buttondown_api_key")), w))
  /\ (forall raw data key,
        fs w !! resolve E path = Some raw ->
        json_object E (universal_newlines raw) = Some data ->
        data !! lit "buttondown_api_key" = Some key ->
        exists c,
          Config_load E path w = (Ok c, w)
          /\ buttondown_api_key c = key
          /\ newsletter_id c = data !! lit "newsletter_id"
          /\ (data !! lit "send_time" = None -> send_time c = lit "08:00")
          /\ (data !! lit "timezone" = None -> timezone c = lit "Europe/Paris")
          /\ (data !! lit "tip_link" = None -> tip_link c = [])
          /\ (data !! lit "reports_csv" = None -> reports_csv c = lit "analytics_report.csv")
          /\ (forall v, data !! lit "send_time" = Some v -> send_time c = v)
          /\ (forall v, data !! lit "timezone" = Some v -> timezone c = v)).
Proof.
  split; [intros r w'; apply reads_Config_load|].
  unfold Config_load, bind, read_text, dict_getitem, or_raise, ret, raise.
  split; [|split].
  - intros ->. reflexivity.
  - intros raw data -> -> ->. reflexivity.
  - intros raw data key -> -> ->. eexists. split; [reflexivity|].
    cbn [buttondown_api_key newsletter_id send_time timezone tip_link reports_csv].
    unfold dict_get.
    repeat split; try (intros ->; reflexivity); intros v ->; reflexivity.
Qed.

Lemma Config_load_spec_witness :
  exists c,
    Config_load env_app (lit "/app/config.json") world_41 = (Ok c, world_41)
    /\ buttondown_api_key c = lit "key"
    /\ newsletter_id c = None
    /\ send_time c = lit "08:00"
    /\ timezone c = lit "Europe/Paris".
Proof.
  destruct (proj2 (proj2 (proj2 (Config_load_spec env_app (lit "/app/config.json") world_41)))
              example_config_text {[ lit "buttondown_api_key" := lit "key" ]} (lit "key")
              eq_refl eq_refl eq_refl)
    as (c & Hc & Hkey & Hid & Hsend & Hzone & _).
  exists c. split; [exact Hc|]. split; [exact Hkey|]. split; [exact Hid|].
  split; [apply Hsend | apply Hzone]; reflexivity.
Defined.

(** ** Scheduling *)

Lemma fails_before_write_bind {A B} (m : M A) (k : A -> M B) :
  undisturbed m -> (forall a, fails_before_write (k a)) ->
  fails_before_write (bind m k).
Proof.
  intros Hm Hk w e w' H.
  apply bind_Raise_inv in H as [H | (a & w1 & Ha & H)].
  - apply Hm in H as [-> ->]. auto.
  - apply Hm in Ha as [Hf Hc]. apply Hk in H. rewrite Hf, Hc in H. exact H.
Qed.

Lemma schedule_email_Raise_inv (E : env) (subject body : pystr) (p : datetime)
    (utcoffset : datetime -> Z) (config : Config) (path : pystr)
    (w w' : world) (e : exn) :
  schedule_email E subject body p utcoffset config path w = (Raise e, w') ->
  fs w' = fs w /\ rng_pos w' = rng_pos w
  /\ ((astimezone_utc utcoffset p = None /\ calls w' = calls w)
      \/ exists r, calls w' = calls w ++ [CreateEmail r]
                   /\ (create_email E r = None \/ can_write E (resolve E path) = false)).
Proof.
  unfold schedule_email, bind, or_raise.
  destruct (astimezone_utc utcoffset p) as [t|]; cbn [raise];
    [|intros [= _ <-]; auto].
  unfold ret at 1. unfold post_email.
  destruct (create_email E _) as [i|] eqn:Hc.
  - unfold write_text. cbn [fs calls rng_pos].
    destruct (can_write E (resolve E path)) eqn:Hw; [discriminate|].
    intros [= _ <-]. cbn [fs calls rng_pos]. eauto 10.
  - intros [= _ <-]. cbn [fs calls rng_pos]. eauto 10.
Qed.

(** X11. A failed [schedule_email] has written no file: the identifier
    file is touched only after the provider has answered.  Either the
    publish time is out of range and no request was sent, or exactly one
    create-email request was sent and the provider refused it or the
    identifier file could not be written. *)
Theorem schedule_email_failure (E : env) (subject body : pystr) (p : datetime)
    (utcoffset : datetime -> Z) (config : Config) (path : pystr)
    (w w' : world) (e : exn) :
  schedule_email E subject body p utcoffset config path w = (Raise e, w') ->
  fs w' = fs w /\ rng_pos w' = rng_pos w
  /\ ((astimezone_utc utcoffset p = None /\ calls w' = calls w)
      \/ exists r, calls w' = calls w ++ [CreateEmail r]
                   /\ (create_email E r = None \/ can_write E (resolve E path) = false)).
Proof. apply schedule_email_Raise_inv. Qed.

Lemma schedule_email_failure_witness :
  fs (snd (schedule_email env_down (lit "subject") (lit "body") example_now
             (fun _ => 3600) (example_config []) (lit ".last_email_id") world_41))
  = fs world_41.
Proof.
  refine (proj1 (schedule_email_failure env_down (lit "subject") (lit "body") example_now
                   (fun _ => 3600) (example_config []) (lit ".last_email_id") world_41
                   (snd (schedule_email env_down (lit "subject") (lit "body") example_now
                           (fun _ => 3600) (example_config []) (lit ".last_email_id")
                           world_41))
                   RequestError _)).
  vm_cast_no_check
    (@eq_refl _ (schedule_email env_down (lit "subject") (lit "body") example_now
                   (fun _ => 3600) (example_config []) (lit ".last_email_id") world_41)).
Defined.

Lemma fails_before_write_main_schedule (E : env) : fails_before_write (main_schedule E).
Proof.
  unfold main_schedule.
  repeat (apply fails_before_write_bind;
          [ first [ apply undisturbed_choose
                  | apply undisturbed_reads;
                    first [ apply reads_Config_load | apply reads_or_raise
                          | apply reads_lift | apply reads_load_quotes
                          | apply reads_load_json_data
                          | apply reads_generate_email_html
                          | apply reads_dict_getitem
                          | intros w r w'; destruct (path_exists E _ w);
                            [apply reads_ret | apply reads_raise] ] ]
          | intros ? ]).
  intros w e w' H.
  apply bind_Raise_inv in H as [H | (i & w1 & _ & H)]; [|discriminate].
  apply schedule_email_Raise_inv in H as (Hf & _ & [[_ Hc] | (r & Hc & _)]); eauto.
Qed.

(** X12. Whatever fails in [main] up to and including the scheduling
    (configuration, zone, send time, pools, template, missing keys, the
    provider) leaves every file as it was, and at most the one
    create-email request has been sent. *)
Theorem main_schedule_failure (E : env) (w w' : world) (e : exn) :
  main_schedule E w = (Raise e, w') ->
  main E w = (Raise e, w')
  /\ fs w' = fs w
  /\ (calls w' = calls w \/ exists r, calls w' = calls w ++ [CreateEmail r]).
Proof.
  intros H. split.
  - unfold main. apply bind_Raise. exact H.
  - apply (fails_before_write_main_schedule E w e w' H).
Qed.

Lemma main_schedule_failure_witness :
  main env_down world_41 = (Raise RequestError, snd (main_schedule env_down world_41))
  /\ fs (snd (main_schedule env_down world_41)) = fs world_41
  /\ (calls (snd (main_schedule env_down world_41)) = calls world_41
      \/ exists r, calls (snd (main_schedule env_down world_41))
                   = calls world_41 ++ [CreateEmail r]).
Proof.
  refine (main_schedule_failure env_down world_41
            (snd (main_schedule env_down world_41)) RequestError _).
  vm_cast_no_check (@eq_refl _ (main_schedule env_down world_41)).
Defined.

(** ** Reporting and the end of the run *)

Lemma report_previous_calls (E : env) (s : scheduled) (w w' : world) r :
  report_previous E s w = (r, w') ->
  calls w' = calls w \/ exists last, calls w' = calls w ++ [GetAnalytics last].
Proof.
  unfold report_previous.
  destruct (path_exists E _ w); [|intros Hr; apply reads_ret in Hr; subst; auto].
  unfold bind at 1.
  destruct (read_text E _ w) as [[text|e] wa] eqn:Ha; apply reads_read_text in Ha as ?; subst wa;
    [|intros [= _ <-]; auto].
  destruct (negb _ && negb _); [|intros Hr; apply reads_ret in Hr; subst; auto].
  unfold bind at 1, retrieve_analytics at 1.
  destruct (get_analytics E _ _) as [data|]; [|intros [= _ <-]; cbn [calls]; eauto].
  unfold bind at 1.
  destruct (sub_one_day _) as [y|]; cbn [or_raise]; [|intros [= _ <-]; cbn [calls]; eauto].
  unfold ret at 1, append_report_row, append_text.
  destruct (can_write E _); intros [= _ <-]; cbn [calls]; eauto.
Qed.

(** X13. Whenever [main] ends normally, the identifier file it reads
    holds the identifier of the email this run scheduled; exactly one
    create-email request was sent, followed by at most one analytics
    request. *)
Theorem main_success_persists_id (E : env) (w0 w : world) :
  main E w0 = (Ok tt, w) ->
  exists s r,
    fs w !! resolve E (previous_email_id_path E) = Some (py_str (sch_email_id s))
    /\ create_email E r = Some (sch_email_id s)
    /\ (calls w = calls w0 ++ [CreateEmail r]
        \/ exists last, calls w = calls w0 ++ [CreateEmail r; GetAnalytics last]).
Proof.
  unfold main. intros H.
  apply bind_Ok_inv in H as (s & w1 & Hsched & Hreport).
  destruct (main_schedule_Ok_request E w0 w1 s Hsched) as (r & Hcalls & Hr).
  exists s, r. unfold main_report in Hreport.
  apply bind_Ok_inv in Hreport as (u & w2 & Hprev & Hwrite).
  apply report_previous_calls in Hprev as Hc2.
  unfold write_text in Hwrite.
  destruct (can_write E _); [|discriminate].
  injection Hwrite as <-. cbn [fs calls].
  split; [apply lookup_insert_eq|]. split; [exact Hr|].
  destruct Hc2 as [-> | [last ->]]; rewrite Hcalls; [left; reflexivity|].
  right. exists last. rewrite <- app_assoc. reflexivity.
Qed.

Lemma main_success_persists_id_witness :
  exists s r,
    fs (snd (main env_home world_41)) !! resolve env_home (previous_email_id_path env_home)
    = Some (py_str (sch_email_id s))
    /\ create_email env_home r = Some (sch_email_id s)
    /\ (calls (snd (main env_home world_41)) = calls world_41 ++ [CreateEmail r]
        \/ exists last,
             calls (snd (main env_home world_41))
             = calls world_41 ++ [CreateEmail r; GetAnalytics last]).
Proof.
  refine (main_success_persists_id env_home world_41 (snd (main env_home world_41)) _).
  apply run_Ok. vm_cast_no_check (@eq_refl (result unit) (Ok tt)).
Defined.

(** X14. When the identifier file [main] reads holds an identifier that,
    stripped, is not empty and differs from the current one, the rest of
    the run fetches the analytics of that stored identifier, appends one
    row (after the header when the report is new) and then stores the
    current identifier.  The row carries the date of the day before
    [now_local] and the subject of the email scheduled in this run, not
    that of the email the counters belong to. *)
Theorem main_report_reports (E : env) (s : scheduled) (w : world)
    (stored : pystr) (data : gmap pystr cell) (yesterday : datetime) :
  fs w !! resolve E (previous_email_id_path E) = Some stored ->
  strip (universal_newlines stored) <> [] ->
  strip (universal_newlines stored) <> py_str (sch_email_id s) ->
  get_analytics E (strip (universal_newlines stored)) (buttondown_api_key (sch_config s))
  = Some data ->
  sub_one_day (sch_now_local s) = Some yesterday ->
  can_write E (resolve E (reports_csv (sch_config s))) = true ->
  can_write E (resolve E (previous_email_id_path E)) = true ->
  exists w',
    main_report E s w = (Ok tt, w')
    /\ calls w' = calls w ++ [GetAnalytics (strip (universal_newlines stored))]
    /\ fs w'
       = <[resolve E (previous_email_id_path E) := py_str (sch_email_id s)]>
           (<[resolve E (reports_csv (sch_config s))
              := default [] (fs w !! resolve E (reports_csv (sch_config s)))
                 ++ (if path_exists E (reports_csv (sch_config s)) w
                     then [] else csv_row report_headers)
                 ++ csv_row (report_row data (sch_subject s) (strftime_ymd yesterday))]>
              (fs w)).
Proof.
  intros Hstored Hne Hdiff Hdata Hy Hwr Hwm.
  assert (exists w1,
            report_previous E s w = (Ok tt, w1)
            /\ calls w1 = calls w ++ [GetAnalytics (strip (universal_newlines stored))]
            /\ rng_pos w1 = rng_pos w
            /\ fs w1
               = <[resolve E (reports_csv (sch_config s))
                   := default [] (fs w !! resolve E (reports_csv (sch_config s)))
                      ++ (if path_exists E (reports_csv (sch_config s)) w
                          then [] else csv_row report_headers)
                      ++ csv_row (report_row data (sch_subject s) (strftime_ymd yesterday))]>
                   (fs w)) as (w1 & Hprev & Hc1 & _ & Hf1).
  { unfold report_previous, path_exists at 1.
    rewrite Hstored, bool_decide_eq_true_2 by eauto.
    unfold bind at 1, read_text. rewrite Hstored.
    apply pystr_eqb_neq in Hne, Hdiff. rewrite Hne, Hdiff. cbn [negb andb].
    unfold bind, retrieve_analytics. rewrite Hdata, Hy. cbn [or_raise ret].
    unfold append_report_row, append_text. cbn [fs calls rng_pos].
    rewrite Hwr. eexists. split; [reflexivity|]. cbn [fs calls rng_pos].
    unfold path_exists. cbn [fs]. auto. }
  unfold main_report. rewrite (bind_Ok _ _ _ _ _ Hprev).
  unfold write_text. rewrite Hwm.
  eexists. split; [reflexivity|]. cbn [fs calls]. rewrite Hf1. auto.
Qed.

Lemma main_report_reports_witness :
  exists w',
    main_report env_home (example_scheduled (IdStr (lit "42")))
      (snd (main_schedule env_home world_41)) = (Ok tt, w')
    /\ calls w'
       = calls (snd (main_schedule env_home world_41))
         ++ [GetAnalytics (strip (universal_newlines (lit "41")))]
    /\ fs w'
       = <[resolve env_home (previous_email_id_path env_home)
           := py_str (sch_email_id (example_scheduled (IdStr (lit "42"))))]>
           (<[resolve env_home (reports_csv (sch_config (example_scheduled (IdStr (lit "42")))))
              := default [] (fs (snd (main_schedule env_home world_41))
                               !! resolve env_home
                                    (reports_csv
                                       (sch_config (example_scheduled (IdStr (lit "42"))))))
                 ++ (if path_exists env_home
                          (reports_csv (sch_config (example_scheduled (IdStr (lit "42")))))
                          (snd (main_schedule env_home world_41))
                     then [] else csv_row report_headers)
                 ++ csv_row (report_row example_analytics
                               (sch_subject (example_scheduled (IdStr (lit "42"))))
                               (strftime_ymd
                                  {| year := 2024; month := 1; day := 9; hour := 23;
                                     minute := 0; second := 0; microsecond := 0 |}))]>
              (fs (snd (main_schedule env_home world_41)))).
Proof.
  refine (main_report_reports env_home (example_scheduled (IdStr (lit "42")))
            (snd (main_schedule env_home world_41)) (lit "41") example_analytics
            {| year := 2024; month := 1; day := 9; hour := 23; minute := 0;
               second := 0; microsecond := 0 |} _ _ _ _ _ _ _).
  - vm_cast_no_check (@eq_refl _ (Some (lit "41"))).
  - vm_compute. discriminate.
  - vm_compute. discriminate.
  - reflexivity.
  - reflexivity.
  - reflexivity.
  - reflexivity.
Defined.

Example main_report_example :
  fs (snd (main env_home world_41)) !! lit "/home/analytics_report.csv"
  = Some (csv_row report_headers
          ++ csv_row (report_row example_analytics (subject_of fallback_text_light)
                        (lit "2024-01-09"))).
Proof. vm_compute. reflexivity. Qed.

(** X15. On a first run, with no identifier file yet, nothing is asked of
    the analytics endpoint and nothing is appended: the rest of the run
    only creates the identifier file. *)
Theorem main_report_first_run (E : env) (s : scheduled) (w : world) :
  fs w !! resolve E (previous_email_id_path E) = None ->
  can_write E (resolve E (previous_email_id_path E)) = true ->
  main_report E s w
  = (Ok tt, {| fs := <[resolve E (previous_email_id_path E) := py_str (sch_email_id s)]> (fs w);
               calls := calls w; rng_pos := rng_pos w |}).
Proof.
  intros Hnone Hw.
  assert (report_previous E s w = (Ok tt, w)) as Hprev.
  { unfold report_previous, path_exists.
    rewrite Hnone, bool_decide_eq_false_2 by (intros [x Hx]; discriminate).
    reflexivity. }
  unfold main_report. rewrite (bind_Ok _ _ _ _ _ Hprev).
  unfold write_text. rewrite Hw. reflexivity.
Qed.

Lemma main_report_first_run_witness :
  main_report env_home (example_scheduled (IdStr (lit "42")))
    (snd (main_schedule env_home world_first))
  = (Ok tt,
     {| fs := <[resolve env_home (previous_email_id_path env_home)
                := py_str (sch_email_id (example_scheduled (IdStr (lit "42"))))]>
                (fs (snd (main_schedule env_home world_first)));
        calls := calls (snd (main_schedule env_home world_first));
        rng_pos := rng_pos (snd (main_schedule env_home world_first)) |}).
Proof.
  apply (main_report_first_run env_home (example_scheduled (IdStr (lit "42")))
           (snd (main_schedule env_home world_first))).
  - vm_compute. reflexivity.
  - reflexivity.
Defined.

(** ** The CSV report *)

Lemma append_report_row_writable (E : env) (data : gmap pystr cell) (config : Config)
    (subject date_str : pystr) (w : world) :
  can_write E (resolve E (reports_csv config)) = true ->
  exists w',
    append_report_row E data config subject date_str w = (Ok tt, w')
    /\ calls w' = calls w
    /\ fs w' !! resolve E (reports_csv config)
       = Some (match fs w !! resolve E (reports_csv config) with
               | Some old => old
               | None => csv_row report_headers
               end ++ csv_row (report_row data subject date_str))
    /\ forall p, p <> resolve E (reports_csv config) -> fs w' !! p = fs w !! p.
Proof.
  unfold append_report_row, append_text, path_exists. intros Hw; rewrite Hw.
  eexists. split; [reflexivity|]. cbn [fs calls]. split; [reflexivity|]. split.
  - rewrite lookup_insert_eq. f_equal.
    destruct (fs w !! resolve E (reports_csv config)) as [old|].
    + rewrite bool_decide_eq_true_2 by eauto. reflexivity.
    + rewrite bool_decide_eq_false_2 by (intros [x Hx]; discriminate). reflexivity.
  - intros p Hp. apply lookup_insert_ne. congruence.
Qed.

(** X16. [append_report_row] keeps what the report already holds and adds
    one row at its end; the header row is written first only when the
    file did not exist.  No other file and no request is touched.  When
    the report cannot be opened for appending nothing changes. *)
Theorem append_report_row_spec (E : env) (data : gmap pystr cell) (config : Config)
    (subject date_str : pystr) (w : world) :
  (can_write E (resolve E (reports_csv config)) = false ->
   append_report_row E data config subject date_str w = (Raise PermissionError, w))
  /\ (can_write E (resolve E (reports_csv config)) = true ->
      exists w',
        append_report_row E data config subject date_str w = (Ok tt, w')
        /\ calls w' = calls w
        /\ fs w' !! resolve E (reports_csv config)
           = Some (match fs w !! resolve E (reports_csv config) with
                   | Some old => old
                   | None => csv_row report_headers
                   end ++ csv_row (report_row data subject date_str))
        /\ forall p, p <> resolve E (reports_csv config) -> fs w' !! p = fs w !! p).
Proof.
  split; [|apply append_report_row_writable].
  unfold append_report_row, append_text. intros Hw; rewrite Hw. reflexivity.
Qed.

Lemma append_report_row_spec_witness :
  exists w',
    append_report_row env_home example_analytics (example_config []) (lit "subject")
      (lit "2024-01-09") world_41 = (Ok tt, w')
    /\ calls w' = calls world_41
    /\ fs w' !! resolve env_home (reports_csv (example_config []))
       = Some (match fs world_41 !! resolve env_home (reports_csv (example_config [])) with
               | Some old => old
               | None => csv_row report_headers
               end ++ csv_row (report_row example_analytics (lit "subject") (lit "2024-01-09")))
    /\ forall p, p <> resolve env_home (reports_csv (example_config [])) ->
                 fs w' !! p = fs world_41 !! p.
Proof.
  apply (proj2 (append_report_row_spec env_home example_analytics (example_config [])
                  (lit "subject") (lit "2024-01-09") world_41)).
  reflexivity.
Defined.

(** X17. Two rows appended one after the other: the header is written at
    most once, before the first row of a new report, and the rows follow
    in the order of the calls. *)
Theorem append_report_row_twice (E : env) (config : Config) (w : world)
    (data1 data2 : gmap pystr cell) (subject1 date1 subject2 date2 : pystr) :
  can_write E (resolve E (reports_csv config)) = true ->
  exists w1 w2,
    append_report_row E data1 config subject1 date1 w = (Ok tt, w1)
    /\ append_report_row E data2 config subject2 date2 w1 = (Ok tt, w2)
    /\ fs w2 !! resolve E (reports_csv config)
       = Some (match fs w !! resolve E (reports_csv config) with
               | Some old => old
               | None => csv_row report_headers
               end
               ++ csv_row (report_row data1 subject1 date1)
               ++ csv_row (report_row data2 subject2 date2)).
Proof.
  intros Hw.
  destruct (append_report_row_writable E data1 config subject1 date1 w Hw)
    as (w1 & H1 & _ & Hf1 & _).
  destruct (append_report_row_writable E data2 config subject2 date2 w1 Hw)
    as (w2 & H2 & _ & Hf2 & _).
  exists w1, w2. split; [exact H1|]. split; [exact H2|].
  rewrite Hf2, Hf1. rewrite <- app_assoc. reflexivity.
Qed.

Lemma append_report_row_twice_witness :
  exists w1 w2,
    append_report_row env_home example_analytics (example_config []) (lit "a")
      (lit "2024-01-09") world_41 = (Ok tt, w1)
    /\ append_report_row env_home example_analytics (example_config []) (lit "b")
         (lit "2024-01-10") w1 = (Ok tt, w2)
    /\ fs w2 !! resolve env_home (reports_csv (example_config []))
       = Some (match fs world_41 !! resolve env_home (reports_csv (example_config [])) with
               | Some old => old
               | None => csv_row report_headers
               end
               ++ csv_row (report_row example_analytics (lit "a") (lit "2024-01-09"))
               ++ csv_row (report_row example_analytics (lit "b") (lit "2024-01-10"))).
Proof.
  apply (append_report_row_twice env_home (example_config []) world_41
           example_analytics example_analytics (lit "a") (lit "2024-01-09")
           (lit "b") (lit "2024-01-10")).
  reflexivity.
Defined.

(** ** CSV fields *)

(** Doubled quotes are read back: what follows the closing quote of a
    field is not a quote. *)
Lemma csv_quoted_prefix (f g r1 r2 : pystr) :
  head r1 <> Some 34%N -> head r2 <> Some 34%N ->
  flat_map (fun c => if (c =? 34)%N then [34%N; 34%N] else [c]) f ++ 34%N :: r1
  = flat_map (fun c => if (c =? 34)%N then [34%N; 34%N] else [c]) g ++ 34%N :: r2 ->
  f = g /\ r1 = r2.
Proof.
  intros H1 H2. revert g; induction f as [|c f IH]; intros [|d g]; simpl.
  - intros [= ->]. auto.
  - destruct (N.eqb_spec d 34) as [->|Hd]; simpl.
    + intros [= ->]. exfalso. apply H1. reflexivity.
    + intros [= <-]. congruence.
  - destruct (N.eqb_spec c 34) as [->|Hc]; simpl.
    + intros [= <-]. exfalso. apply H2. reflexivity.
    + intros [= ->]. congruence.
  - destruct (N.eqb_spec c 34) as [->|Hc], (N.eqb_spec d 34) as [->|Hd]; simpl.
    + intros [= H]. apply IH in H as [-> ->]. auto.
    + intros [= <- _]. congruence.
    + intros [= -> _]. congruence.
    + intros [= -> H]. apply IH in H as [-> ->]. auto.
Qed.

(** A field written as it is ends where the first comma or carriage
    return stands. *)
Lemma csv_plain_prefix (f g : pystr) (c1 c2 : N) (r1 r2 : pystr) :
  existsb (fun c => (c =? 44) || (c =? 34) || (c =? 13) || (c =? 10))%N f = false ->
  existsb (fun c => (c =? 44) || (c =? 34) || (c =? 13) || (c =? 10))%N g = false ->
  c1 = 44%N \/ c1 = 13%N -> c2 = 44%N \/ c2 = 13%N ->
  f ++ c1 :: r1 = g ++ c2 :: r2 ->
  f = g /\ c1 :: r1 = c2 :: r2.
Proof.
  intros Hf Hg H1 H2. revert g Hg; induction f as [|c f IH]; intros [|d g] Hg; simpl.
  - auto.
  - intros [= -> _]. simpl in Hg. destruct H1 as [-> | ->]; discriminate.
  - intros [= -> _]. simpl in Hf. destruct H2 as [-> | ->]; discriminate.
  - simpl in Hf, Hg. apply orb_false_iff in Hf as [_ Hf]. apply orb_false_iff in Hg as [_ Hg].
    intros [= -> H]. apply (IH Hf g Hg) in H as [-> H]. auto.
Qed.

(** A written field is read back, whatever field separator or record end
    follows it. *)
Lemma csv_field_prefix (f g : pystr) (c1 c2 : N) (r1 r2 : pystr) :
  c1 = 44%N \/ c1 = 13%N -> c2 = 44%N \/ c2 = 13%N ->
  csv_field f ++ c1 :: r1 = csv_field g ++ c2 :: r2 ->
  f = g /\ c1 :: r1 = c2 :: r2.
Proof.
  intros H1 H2. unfold csv_field.
  destruct (existsb _ f) eqn:Hf, (existsb _ g) eqn:Hg.
  - simpl. rewrite <- !app_assoc. simpl. intros [= H].
    apply csv_quoted_prefix in H;
      [ exact H
      | simpl; intros [= ->]; destruct H1; discriminate
      | simpl; intros [= ->]; destruct H2; discriminate ].
  - simpl. rewrite <- app_assoc. simpl. destruct g as [|d g]; simpl.
    + intros [= <- _]. destruct H2; discriminate.
    + intros [= <- _]. simpl in Hg. discriminate.
  - simpl. rewrite <- app_assoc. simpl. destruct f as [|c f]; simpl.
    + intros [= -> _]. destruct H1; discriminate.
    + intros [= -> _]. simpl in Hf. discriminate.
  - apply csv_plain_prefix; assumption.
Qed.

Lemma join_fields_cons (f : pystr) (rest : list pystr) :
  join_fields (List.map csv_field (f :: rest)) ++ [13%N; 10%N]
  = csv_field f
    ++ match rest with
       | [] => [13%N; 10%N]
       | _ :: _ => 44%N :: join_fields (List.map csv_field rest) ++ [13%N; 10%N]
       end.
Proof. destruct rest; simpl; [reflexivity|]. rewrite <- app_assoc. reflexivity. Qed.

(** Records of one field or more are read back field by field. *)
Lemma join_fields_injective (a b : list pystr) :
  a <> [] -> b <> [] ->
  join_fields (List.map csv_field a) ++ [13%N; 10%N]
  = join_fields (List.map csv_field b) ++ [13%N; 10%N] ->
  a = b.
Proof.
  revert b; induction a as [|f a IH]; intros [|g b] Ha Hb; try congruence.
  rewrite !join_fields_cons. destruct a as [|f2 a], b as [|g2 b]; intros H.
  - apply csv_field_prefix in H as [-> _]; auto.
  - apply csv_field_prefix in H as [_ H]; auto. discriminate.
  - apply csv_field_prefix in H as [_ H]; auto. discriminate.
  - apply csv_field_prefix in H as [-> H]; auto. injection H as H.
    assert (f2 :: a = g2 :: b) as ->
      by (apply IH; [discriminate | discriminate | exact H]).
    reflexivity.
Qed.

Lemma csv_row_fields (a : list pystr) :
  a <> [[]] -> csv_row a = join_fields (List.map csv_field a) ++ [13%N; 10%N].
Proof.
  intros Ha. unfold csv_row. destruct a as [|f [|g a]]; try reflexivity.
  destruct f; [congruence | reflexivity].
Qed.

Lemma csv_row_inj (a b : list pystr) : csv_row a = csv_row b -> a = b.
Proof.
  intros Heq.
  assert (forall c : list pystr, c <> [[]] -> csv_row c <> csv_row [[]]) as Hquoted.
  { intros c Hc H. rewrite (csv_row_fields c Hc) in H. destruct c as [|f c].
    - discriminate.
    - rewrite join_fields_cons in H.
      change (csv_row [[]]) with ([34%N; 34%N] ++ [13%N; 10%N]) in H.
      unfold csv_field in H. destruct (existsb _ f) eqn:Hf.
      + simpl in H. rewrite <- app_assoc in H. simpl in H. injection H as H.
        assert (head (match c with
                      | [] => [13%N; 10%N]
                      | _ :: _ => 44%N :: join_fields (List.map csv_field c) ++ [13%N; 10%N]
                      end) <> Some 34%N) as Hhead by (destruct c; discriminate).
        apply (csv_quoted_prefix f [] _ [13%N; 10%N] Hhead) in H as [-> _]; [|discriminate].
        simpl in Hf. discriminate.
      + destruct f as [|x f]; simpl in H.
        * destruct c; discriminate.
        * injection H as -> _. simpl in Hf. discriminate. }
  destruct (decide (a = [[]])) as [-> | Ha], (decide (b = [[]])) as [-> | Hb].
  - reflexivity.
  - exfalso. exact (Hquoted b Hb (eq_sym Heq)).
  - exfalso. exact (Hquoted a Ha Heq).
  - rewrite (csv_row_fields a Ha), (csv_row_fields b Hb) in Heq.
    destruct a as [|f a], b as [|g b].
    + reflexivity.
    + exfalso. apply Hb.
      apply (join_fields_injective (g :: b) [[]]); [discriminate | discriminate|].
      rewrite <- Heq. reflexivity.
    + exfalso. apply Ha.
      apply (join_fields_injective (f :: a) [[]]); [discriminate | discriminate|].
      rewrite Heq. reflexivity.
    + apply join_fields_injective; [discriminate | discriminate | exact Heq].
Qed.

(** X18. A record written by [csv.writer] determines its fields: two
    different lists of fields are never written as the same text,
    whatever commas, quotes and line breaks the fields hold.  So two
    report rows with different subjects are different texts, whatever
    their dates and counters. *)
Theorem csv_row_injective (a b : list pystr) (data1 data2 : gmap pystr cell)
    (subject1 subject2 date1 date2 : pystr) :
  (a <> b -> csv_row a <> csv_row b)
  /\ (subject1 <> subject2 ->
      csv_row (report_row data1 subject1 date1)
      <> csv_row (report_row data2 subject2 date2)).
Proof.
  split.
  - intros Hne Heq. apply Hne, csv_row_inj, Heq.
  - intros Hne Heq. apply csv_row_inj in Heq. apply Hne.
    unfold report_row in Heq. congruence.
Qed.

Lemma csv_row_injective_witness :
  csv_row [lit "a,b"] <> csv_row [lit "a"; lit "b"]
  /\ csv_row (report_row example_analytics (lit "a,b") (lit "2024-01-09"))
     <> csv_row (report_row example_analytics (lit "a") (lit "2024-01-09")).
Proof.
  split.
  - apply (proj1 (csv_row_injective [lit "a,b"] [lit "a"; lit "b"] example_analytics
                    example_analytics (lit "a,b") (lit "a") (lit "2024-01-09")
                    (lit "2024-01-09"))).
    discriminate.
  - apply (proj2 (csv_row_injective [lit "a,b"] [lit "a"; lit "b"] example_analytics
                    example_analytics (lit "a,b") (lit "a") (lit "2024-01-09")
                    (lit "2024-01-09"))).
    discriminate.
Defined.

Example csv_field_ex :
  csv_field (lit "a,b") = [34%N] ++ lit "a,b" ++ [34%N]
  /\ csv_field ([97%N; 34%N; 98%N]) = [34%N; 97%N; 34%N; 34%N; 98%N; 34%N]
  /\ csv_field (lit "plain") = lit "plain".
Proof. repeat split; reflexivity. Qed.

Lemma str_of_Z_plain (z : Z) :
  Forall (fun c => c = 45%N \/ (48 <= c <= 57)%N) (str_of_Z z).
Proof.
  assert (forall n, Forall (fun c => c = 45%N \/ (48 <= c <= 57)%N) (str_of_N n)) as Hn.
  { intros n. unfold str_of_N. apply digits_from_chars; [|constructor].
    intros k Hk. right. lia. }
  unfold str_of_Z. destruct (z <? 0); [constructor; [left; reflexivity|]|]; apply Hn.
Qed.

Lemma zfill_plain (w : nat) (s : pystr) :
  Forall (fun c => c = 45%N \/ (48 <= c <= 57)%N) s ->
  Forall (fun c => c = 45%N \/ (48 <= c <= 57)%N) (zfill w s).
Proof.
  intros H. unfold zfill. apply Forall_app. split; [|assumption].
  induction (w - length s)%nat; simpl; constructor; [right; lia | assumption].
Qed.

Lemma csv_field_plain (f : pystr) :
  Forall (fun c => c = 45%N \/ (48 <= c <= 57)%N) f -> csv_field f = f.
Proof.
  intros H. unfold csv_field.
  replace (existsb _ f) with false; [reflexivity|].
  symmetry. induction H as [|c f Hc _ IH]; [reflexivity|].
  simpl. rewrite IH, orb_false_r.
  destruct Hc as [-> | Hc]; [reflexivity|].
  repeat (apply orb_false_intro); apply N.eqb_neq; lia.
Qed.

(** X19. The layout of a report row: the date, the subject and the eight
    counters follow in the order of the header, separated by commas, and
    the row ends with CR LF.  The date is made of digits and hyphens and
    is written as it is.  A counter the provider did not send is written
    as [0], a counter it sent as [null] is written as the empty field,
    and an integer counter as its digits; the subject, and a counter that
    is a string, are quoted when they hold a comma, a quote or a line
    break. *)
Theorem report_row_layout (data : gmap pystr cell) (subject : pystr) (d : datetime) :
  csv_row (report_row data subject (strftime_ymd d))
  = strftime_ymd d ++ [44%N] ++ csv_field subject
    ++ [44%N] ++ csv_field (counter data "recipients")
    ++ [44%N] ++ csv_field (counter data "deliveries")
    ++ [44%N] ++ csv_field (counter data "opens")
    ++ [44%N] ++ csv_field (counter data "clicks")
    ++ [44%N] ++ csv_field (counter data "temporary_failures")
    ++ [44%N] ++ csv_field (counter data "permanent_failures")
    ++ [44%N] ++ csv_field (counter data "unsubscriptions")
    ++ [44%N] ++ csv_field (counter data "complaints")
    ++ [13%N; 10%N]
  /\ forall key : string,
       match data !! lit key with
       | None => csv_field (counter data key) = lit "0"
       | Some CNone => csv_field (counter data key) = []
       | Some (CInt z) => csv_field (counter data key) = str_of_Z z
       | Some (CStr s) => csv_field (counter data key) = csv_field s
       | Some (COther text) => csv_field (counter data key) = csv_field text
       end.
Proof.
  split.
  - assert (csv_field (strftime_ymd d) = strftime_ymd d) as Hdate.
    { apply csv_field_plain. unfold strftime_ymd. change (lit "-") with [45%N].
      repeat first [ apply zfill_plain, str_of_Z_plain
                   | apply str_of_Z_plain
                   | apply Forall_app; split
                   | constructor; [left; reflexivity | constructor] ]. }
    unfold csv_row, report_row. cbn [List.map join_fields].
    rewrite Hdate.
    cbn [app]. repeat (rewrite <- app_assoc; cbn [app]). reflexivity.
  - intros key. unfold counter.
    destruct (data !! lit key) as [[|z|s|text]|]; cbn [default cell_text];
      try reflexivity.
    apply csv_field_plain, str_of_Z_plain.
Qed.

Example report_row_ex :
  csv_row (report_row {[ lit "recipients" := CInt 120; lit "opens" := CNone;
                         lit "clicks" := CStr (lit "1,5") ]}
             ([34%N] ++ lit "Oui" ++ [34%N] ++ lit ", dit-il") (lit "2024-01-09"))
  = lit "2024-01-09," ++ [34%N; 34%N; 34%N] ++ lit "Oui" ++ [34%N; 34%N]
    ++ lit ", dit-il" ++ [34%N]
    ++ lit ",120,0,," ++ [34%N] ++ lit "1,5" ++ [34%N] ++ lit ",0,0,0,0" ++ [13%N; 10%N].
Proof. vm_compute. reflexivity. Qed.

(** ** The order of the replacements *)

(** X20. A substituted value is read again only by the replacements that
    come after its own.  On a template of placeholders and literal text
    in which no placeholder can begin, if in each value none of the
    placeholders replaced later can begin, the eight replacements fill
    every placeholder with its value; a value may hold placeholders of
    earlier positions, or its own, and they stay in the page as they
    are. *)
Theorem render_reads_forward (value : placeholder -> pystr) (segs : list seg) :
  forallb literal_inert segs = true ->
  (forall p, quiet_for (replaced_after p) (value p) = true) ->
  render (flatten segs) (value NAME) (value QUOTE) (value PRODUCT_TITLE)
    (value PRODUCT_DESC) (value PRODUCT_IMG) (value PRODUCT_LINK) (value TIP_LINK)
    (value DATE)
  = fill value segs.
Proof. exact (render_forward value segs). Qed.

Lemma render_reads_forward_witness :
  render (flatten example_segs) subscriber_name (lit "{{NAME}} et {{QUOTE}}")
    (lit "Bougie") (lit "Une bougie.") [] (lit "https://shop.example/") (lit "#")
    (lit "10/01/2024")
  = fill (values subscriber_name (lit "{{NAME}} et {{QUOTE}}") (lit "Bougie")
            (lit "Une bougie.") [] (lit "https://shop.example/") (lit "#")
            (lit "10/01/2024")) example_segs.
Proof.
  apply (render_reads_forward
           (values subscriber_name (lit "{{NAME}} et {{QUOTE}}") (lit "Bougie")
              (lit "Une bougie.") [] (lit "https://shop.example/") (lit "#")
              (lit "10/01/2024")) example_segs).
  - vm_compute. reflexivity.
  - intros p. destruct p; vm_compute; reflexivity.
Defined.

Example render_keeps_earlier_placeholders :
  render (lit "<p>{{NAME}}: {{QUOTE}}</p>") subscriber_name (lit "{{NAME}} et {{QUOTE}}")
    (lit "Bougie") (lit "Une bougie.") [] (lit "https://shop.example/") (lit "#")
    (lit "10/01/2024")
  = lit "<p>{{ subscriber.name }}: {{NAME}} et {{QUOTE}}</p>".
Proof. reflexivity. Qed.

(** ** What rendering needs *)

(** X21. For a quote and a product whose values are strings, as the
    source annotates them: [generate_email_html] changes nothing, and
    returns a page exactly when the template file exists, the quote has a
    [text] and the product has a [title], a [description] and a [link];
    the [image] key may be missing.  A product without [link] is a
    [KeyError] on [link], whatever else is missing, the link being looked
    up first. *)
Theorem generate_email_html_needs (E : env) (recipient_name : pystr)
    (quote product : gmap pystr pystr) (config : Config) (template_path : pystr)
    (w : world) :
  (forall r w',
      generate_email_html E recipient_name quote product config template_path w = (r, w') ->
      w' = w)
  /\ ((exists html,
         generate_email_html E recipient_name quote product config template_path w
         = (Ok html, w))
      <-> is_Some (fs w !! resolve E template_path)
          /\ is_Some (quote !! lit "text")
          /\ is_Some (product !! lit "title")
          /\ is_Some (product !! lit "description")
          /\ is_Some (product !! lit "link"))
  /\ (is_Some (fs w !! resolve E template_path) ->
      product !! lit "link" = None ->
      generate_email_html E recipient_name quote product config template_path w
      = (Raise (KeyError (lit "link")), w)).
Proof.
  split; [intros r w'; apply reads_generate_email_html|].
  split; [split|].
  - intros [html H].
    unfold generate_email_html, bind, read_text, dict_getitem, or_raise, ret, raise in H.
    destruct (fs w !! resolve E template_path); [|discriminate].
    destruct (product !! lit "link"); [|discriminate].
    destruct (quote !! lit "text"); [|discriminate].
    destruct (product !! lit "title"); [|discriminate].
    destruct (product !! lit "description"); [|discriminate].
    repeat split; eauto.
  - intros ([raw Hraw] & [text Htext] & [title Htitle] & [desc Hdesc] & [link Hlink]).
    eexists. apply (generate_email_html_eval E _ _ _ _ _ _ raw text title desc link);
      assumption.
  - intros [raw Hraw] Hlink.
    unfold generate_email_html, bind, read_text, dict_getitem, or_raise, ret, raise.
    rewrite Hraw, Hlink. reflexivity.
Qed.

Lemma generate_email_html_needs_witness :
  generate_email_html env_app subscriber_name example_quote
    (delete (lit "link") (example_product None)) (example_config [])
    (lit "email_template.html") world_41
  = (Raise (KeyError (lit "link")), world_41).
Proof.
  apply (proj2 (proj2 (generate_email_html_needs env_app subscriber_name example_quote
                         (delete (lit "link") (example_product None)) (example_config [])
                         (lit "email_template.html") world_41))).
  - eexists. reflexivity.
  - reflexivity.
Defined.

(** ** From one run to the next *)

(** X22. When the script is started from another directory than its own,
    so that [schedule_email]'s identifier path and the one [main] reads
    name different files, scheduling in the next run does not disturb
    what the previous run stored: the file [main] is about to read still
    holds the identifier of the email the previous run scheduled. *)
Theorem next_run_reads_previous_id (E1 E2 : env) (w0 w1 w2 : world) (s2 : scheduled) :
  main E1 w0 = (Ok tt, w1) ->
  resolve E2 (previous_email_id_path E2) = resolve E1 (previous_email_id_path E1) ->
  resolve E2 (lit ".last_email_id") <> resolve E2 (previous_email_id_path E2) ->
  main_schedule E2 w1 = (Ok s2, w2) ->
  exists s1 wa,
    main_schedule E1 w0 = (Ok s1, wa)
    /\ fs w2 !! resolve E2 (previous_email_id_path E2) = Some (py_str (sch_email_id s1)).
Proof.
  intros Hrun Hsame Hdiff Hnext. unfold main in Hrun.
  apply bind_Ok_inv in Hrun as (s1 & wa & Hsched & Hreport).
  exists s1, wa. split; [exact Hsched|].
  unfold main_report in Hreport.
  apply bind_Ok_inv in Hreport as (u & wb & _ & Hwrite).
  unfold write_text in Hwrite. destruct (can_write E1 _); [|discriminate].
  injection Hwrite as <-.
  apply main_schedule_Ok_inv in Hnext as (Hfs & _). rewrite Hfs.
  rewrite lookup_insert_ne by exact Hdiff.
  rewrite Hsame. cbn [fs]. apply lookup_insert_eq.
Qed.

Lemma next_run_reads_previous_id_witness :
  exists s1 wa,
    main_schedule env_home world_first = (Ok s1, wa)
    /\ fs (snd (main_schedule env_home (snd (main env_home world_first))))
         !! resolve env_home (previous_email_id_path env_home)
       = Some (py_str (sch_email_id s1)).
Proof.
  refine (next_run_reads_previous_id env_home env_home world_first
            (snd (main env_home world_first))
            (snd (main_schedule env_home (snd (main env_home world_first))))
            (example_scheduled (IdStr (lit "42"))) _ _ _ _).
  - apply run_Ok. vm_cast_no_check (@eq_refl (result unit) (Ok tt)).
  - reflexivity.
  - vm_compute. discriminate.
  - apply run_Ok.
    vm_cast_no_check (@eq_refl (result scheduled) (Ok (example_scheduled (IdStr (lit "42"))))).
Defined.

(** X23. Whatever its outcome, a run sends at most one create-email
    request and at most one analytics request, and never asks for
    analytics before the email of the day has been created. *)
Theorem main_requests (E : env) (w : world) :
  calls (snd (main E w)) = calls w
  \/ (exists r, calls (snd (main E w)) = calls w ++ [CreateEmail r])
  \/ (exists r last, calls (snd (main E w)) = calls w ++ [CreateEmail r; GetAnalytics last]).
Proof.
  unfold main, bind.
  destruct (main_schedule E w) as [[s|e] w1] eqn:Hsched.
  - destruct (main_schedule_Ok_request E w w1 s Hsched) as (r & Hcalls & _).
    unfold main_report, bind.
    destruct (report_previous E s w1) as [[u|e] w2] eqn:Hprev;
      apply report_previous_calls in Hprev as Hc2.
    + assert (calls (snd (write_text E (previous_email_id_path E)
                            (py_str (sch_email_id s)) w2)) = calls w2) as ->
        by (unfold write_text; destruct (can_write E _); reflexivity).
      destruct Hc2 as [-> | [last ->]]; rewrite Hcalls; [eauto|].
      right. right. exists r, last. rewrite <- app_assoc. reflexivity.
    + cbn [snd]. destruct Hc2 as [-> | [last ->]]; rewrite Hcalls; [eauto|].
      right. right. exists r, last. rewrite <- app_assoc. reflexivity.
  - cbn [snd].
    apply fails_before_write_main_schedule in Hsched as [_ [-> | [r ->]]]; eauto.
Qed.
